(** * NUTTERX VCF API (server.js): a shallow embedding and its properties

    The repository is a single Express application, [server.js], shipped in two
    deployment variants: one with the VIP media routes and one without.  Each
    route handler is a [try { ... } catch (err) { ... }] block around a few
    validation steps and one or two calls on a MongoDB collection.

    Modelling choices, all taken from the source text:

    - a JavaScript string is a [string]: the sequence of the UTF-8 bytes of the
      text.  The handlers only test emptiness, compare for equality, concatenate
      and delete the code units matched by [\D]; a character outside ASCII has
      no byte (and no UTF-16 code unit) in the range of the decimal digits, so
      these operations agree on both encodings, and a string of digits has the
      same length in both;
    - a field of a request body is an [option string]: absent, or a string.
      A body whose field is a number, a boolean, an array or an object is
      outside the model; a truthy phone number that is not a string, for one,
      makes [replace] throw a TypeError, which the [catch] clause answers 500;
    - the document store is a record of three lists in natural (insertion)
      order, together with a flag telling whether the server answers and a
      trace of the collection methods that were called;
    - a handler is a computation in a state-and-exception monad; [try]/[catch]
      is [handle], and an early [return res.status(..).json(..)] is the value of
      the computation. *)

From Stdlib Require Import Strings.String Strings.Ascii Strings.Byte.
From Stdlib Require Import List ZArith NArith Bool Lia.
From Stdlib Require Import Sorting.Permutation Sorting.Sorted.
Import ListNotations.
Open Scope string_scope.

(** ** JavaScript strings *)

Module Js.

(** [!s] on a string or an absent field: only the empty string and
    [undefined] are falsy. *)
Definition truthy (v : option string) : bool :=
  match v with
  | None => false
  | Some s => negb (String.eqb s "")
  end.

(** [a || b] on two string-valued fields. *)
Definition or_else (a : option string) (b : string) : string :=
  match a with
  | Some s => if String.eqb s "" then b else s
  | None => b
  end.

(** The ASCII decimal digits, the class [\d] of a regular expression without
    the [u] flag. *)
Definition is_digit (c : ascii) : bool :=
  let n := nat_of_ascii c in (48 <=? n)%nat && (n <=? 57)%nat.

(** The class [\D]. *)
Definition regex_D (c : ascii) : bool := negb (is_digit c).

(** [s.replace(/C/g, "")] for a one-character class [C]: scan left to right and
    drop every match. *)
Fixpoint replace_global_empty (cls : ascii -> bool) (s : string) : string :=
  match s with
  | EmptyString => EmptyString
  | String c rest =>
      if cls c then replace_global_empty cls rest
      else String c (replace_global_empty cls rest)
  end.

(** The string held by a field that has passed a truthiness test. *)
Definition str (v : option string) : string :=
  match v with
  | Some s => s
  | None => ""
  end.

(** A destructuring default, [{ field = d }]: used when the field is absent. *)
Definition default (v : option string) (d : string) : string :=
  match v with
  | Some s => s
  | None => d
  end.

(** [v !== s] for a field [v] and a string [s]. *)
Definition strict_neq (v : option string) (s : string) : bool :=
  match v with
  | Some k => negb (String.eqb k s)
  | None => true
  end.

(** [xs.includes(x)] on an array of strings. *)
Definition includes (xs : list string) (x : string) : bool :=
  existsb (String.eqb x) xs.

(** [xs.find(p)]. *)
Definition find {A : Type} (p : A -> bool) (xs : list A) : option A :=
  List.find p xs.

End Js.

(** ** Phone normalisation and the length rule (lines 134-137, 166-168, 234-236) *)

(** [const cleanedPhone = phone_number.replace(/\D/g, "")] *)
Definition cleanedPhone (phone_number : string) : string :=
  Js.replace_global_empty Js.regex_D phone_number.

(** [cleanedPhone.length < 10 || cleanedPhone.length > 15] *)
Definition length_out_of_range (cleaned : string) : bool :=
  (String.length cleaned <? 10)%nat || (15 <? String.length cleaned)%nat.

Inductive PhoneCheck : Type :=
| PhoneAccepted (cleaned : string)
| InvalidPhone.

(** The two statements together: normalise, then range-check. *)
Definition checkPhone (phone_number : string) : PhoneCheck :=
  let cleaned := cleanedPhone phone_number in
  if length_out_of_range cleaned then InvalidPhone else PhoneAccepted cleaned.

(** ** Documents *)

(** A driver-generated [_id]: the 96-bit value of the ObjectId. *)
Definition ObjectId : Type := N.

Module Contact.
Record t : Type := mk {
  _id : ObjectId;
  name : string;
  phone_number : string;
  link : string;
  created_at : Z
}.
End Contact.

Module Broadcast.
Record t : Type := mk {
  _id : ObjectId;
  message : string;
  created_at : Z
}.
End Broadcast.

Module VipMedia.
Record t : Type := mk {
  _id : ObjectId;
  file_url : string;
  caption : string;
  type : string;
  created_at : Z
}.
End VipMedia.

(** ** The document store and the handler monad *)

Inductive Collection : Type := contacts_coll | broadcasts_coll | vip_photos_coll.

Inductive Method : Type :=
| CountDocuments | Find | FindOne | InsertOne | UpdateOne | DeleteOne.

(** One entry per call of a collection method. *)
Definition StoreOp : Type := (Collection * Method)%type.

Record World : Type := mkWorld {
  contacts : list Contact.t;
  broadcasts : list Broadcast.t;
  vip_photos : list VipMedia.t;
  next_oid : ObjectId;
  online : bool;
  trace : list StoreOp
}.

Definition with_contacts (cs : list Contact.t) (w : World) : World :=
  mkWorld cs (broadcasts w) (vip_photos w) (next_oid w) (online w) (trace w).
Definition with_broadcasts (bs : list Broadcast.t) (w : World) : World :=
  mkWorld (contacts w) bs (vip_photos w) (next_oid w) (online w) (trace w).
Definition with_vip_photos (ms : list VipMedia.t) (w : World) : World :=
  mkWorld (contacts w) (broadcasts w) ms (next_oid w) (online w) (trace w).
Definition with_next_oid (n : ObjectId) (w : World) : World :=
  mkWorld (contacts w) (broadcasts w) (vip_photos w) n (online w) (trace w).
Definition log (op : StoreOp) (w : World) : World :=
  mkWorld (contacts w) (broadcasts w) (vip_photos w) (next_oid w) (online w)
          (trace w ++ [op]).

(** What a [catch (err)] clause can receive. *)
Inductive JsError : Type :=
| MongoServerError (code : Z)
| MongoNetworkError
| BSONError
| TypeError
| ReferenceError.

(** [err.code] *)
Definition code (err : JsError) : option Z :=
  match err with
  | MongoServerError c => Some c
  | _ => None
  end.

Definition E11000 : JsError := MongoServerError 11000.

Inductive Completion (A : Type) : Type :=
| Normal (a : A)
| Throw (err : JsError).
Arguments Normal {A} a.
Arguments Throw {A} err.

(** An [async] function body: it reads and writes the store and either
    completes normally or throws. *)
Definition Async (A : Type) : Type := World -> Completion A * World.

Definition ret {A : Type} (a : A) : Async A := fun w => (Normal a, w).
Definition throw {A : Type} (err : JsError) : Async A := fun w => (Throw err, w).
Definition bind {A B : Type} (m : Async A) (k : A -> Async B) : Async B :=
  fun w =>
    match m w with
    | (Normal a, w') => k a w'
    | (Throw err, w') => (Throw err, w')
    end.

Declare Scope js_scope.
Delimit Scope js_scope with js.
Notation "x <- m ;; k" := (bind m (fun x => k))
  (at level 61, m at next level, right associativity) : js_scope.
Notation "m ;; k" := (bind m (fun _ => k))
  (at level 61, right associativity) : js_scope.
Open Scope js_scope.

(** ** Module scope

    The two deployment variants of [server.js].  A handler reaches a collection
    through a module-level [let] variable; reading an identifier that the
    module never declares throws a [ReferenceError]. *)

Inductive Variant : Type := vip_variant | base_variant.

(** The identifiers each file binds at module level: its imports, its [const]
    and [let] declarations (the collection variables are those of lines 26-29
    in the first file) and its functions. *)
Definition module_bindings (v : Variant) : list string :=
  match v with
  | vip_variant =>
      ["express"; "cors"; "multer"; "MongoClient"; "ObjectId"; "dotenv";
       "app"; "PORT"; "MONGODB_URI"; "ADMIN_KEY"; "SUPPORT_LINK";
       "db"; "contactsCollection"; "broadcastCollection"; "vipMediaCollection";
       "client"; "connectDB"; "storage"; "upload"; "adminAuth"]
  | base_variant =>
      ["express"; "cors"; "MongoClient"; "ObjectId"; "dotenv";
       "app"; "PORT"; "MONGODB_URI"; "ADMIN_KEY"; "SUPPORT_LINK";
       "db"; "contactsCollection"; "broadcastCollection";
       "client"; "connectDB"; "adminAuth"]
  end.

(** Reading the variable [ident] inside a handler. *)
Definition variable (v : Variant) (ident : string) : Async unit :=
  if Js.includes (module_bindings v) ident then ret tt else throw ReferenceError.

(** ** Collection methods

    Every method call is recorded in the trace, and fails with a network error
    when the server does not answer. *)

Definition call {A : Type} (coll : Collection) (m : Method)
    (run : World -> Completion A * World) : Async A :=
  fun w =>
    let w' := log (coll, m) w in
    if online w' then run w' else (Throw MongoNetworkError, w').

(** Cursor stages [.sort({ created_at: 1 })], [.sort({ created_at: -1 })] and
    [.limit(n)]; the sort is an insertion sort, stable on equal keys. *)
Fixpoint insert_by {A : Type} (before : A -> A -> bool) (x : A) (l : list A) : list A :=
  match l with
  | [] => [x]
  | y :: rest => if before x y then x :: y :: rest else y :: insert_by before x rest
  end.

Definition sort_by {A : Type} (before : A -> A -> bool) (l : list A) : list A :=
  fold_right (insert_by before) [] l.

Definition sort_asc {A : Type} (key : A -> Z) : list A -> list A :=
  sort_by (fun x y => (key x <=? key y)%Z).

Definition sort_desc {A : Type} (key : A -> Z) : list A -> list A :=
  sort_by (fun x y => (key y <=? key x)%Z).

Definition limit {A : Type} (n : nat) (l : list A) : list A := firstn n l.

Definition natural_order {A : Type} (l : list A) : list A := l.

(** The first document of a collection that satisfies a filter, with the
    documents before and after it. *)
Fixpoint split_first {A : Type} (p : A -> bool) (l : list A)
    : option (list A * A * list A) :=
  match l with
  | [] => None
  | x :: rest =>
      if p x then Some ([], x, rest)
      else match split_first p rest with
           | Some (pre, y, post) => Some (x :: pre, y, post)
           | None => None
           end
  end.

(** The filters the handlers build: [{ phone_number: p }] and
    [{ _id: new ObjectId(id) }]. *)
Inductive ContactFilter : Type :=
| by_phone_number (p : string)
| by_id (id : ObjectId).

Definition matches (f : ContactFilter) (c : Contact.t) : bool :=
  match f with
  | by_phone_number p => String.eqb (Contact.phone_number c) p
  | by_id id => N.eqb (Contact._id c) id
  end.

(** The [update] object of the two update handlers: each field is set or not. *)
Record Update : Type := mkUpdate {
  upd_name : option string;
  upd_phone_number : option string
}.

(** [{ $set: update }] applied to one document. *)
Definition apply_set (u : Update) (c : Contact.t) : Contact.t :=
  Contact.mk (Contact._id c)
    (match upd_name u with Some n => n | None => Contact.name c end)
    (match upd_phone_number u with Some p => p | None => Contact.phone_number c end)
    (Contact.link c) (Contact.created_at c).

(** The unique index on [phone_number] (line 43): a write is refused when
    another document already holds the value. *)
Definition phone_taken (p : string) (others : list Contact.t) : bool :=
  existsb (fun c => String.eqb (Contact.phone_number c) p) others.

Module contactsCollection.
Section Methods.
Variable v : Variant.

Definition countDocuments : Async nat :=
  variable v "contactsCollection" ;;
  call contacts_coll CountDocuments (fun w => (Normal (length (contacts w)), w)).

(** [find({})] followed by the cursor stages and [.toArray()]. *)
Definition find (cursor : list Contact.t -> list Contact.t)
    : Async (list Contact.t) :=
  variable v "contactsCollection" ;;
  call contacts_coll Find (fun w => (Normal (cursor (contacts w)), w)).

Definition findOne (f : ContactFilter) : Async (option Contact.t) :=
  variable v "contactsCollection" ;;
  call contacts_coll FindOne
    (fun w => (Normal (List.find (matches f) (contacts w)), w)).

(** [insertOne(doc)]: the driver gives the document its [_id]; the result is
    the document as the caller sees it afterwards. *)
Definition insertOne (name phone_number link : string) (created_at : Z)
    : Async Contact.t :=
  variable v "contactsCollection" ;;
  call contacts_coll InsertOne (fun w =>
    if phone_taken phone_number (contacts w) then (Throw E11000, w)
    else
      let doc := Contact.mk (next_oid w) name phone_number link created_at in
      (Normal doc,
       with_next_oid (N.succ (next_oid w)) (with_contacts (contacts w ++ [doc]) w))).

(** [updateOne(filter, { $set: update })]; the result is [matchedCount]. *)
Definition updateOne (f : ContactFilter) (u : Update) : Async nat :=
  variable v "contactsCollection" ;;
  call contacts_coll UpdateOne (fun w =>
    match split_first (matches f) (contacts w) with
    | None => (Normal 0%nat, w)
    | Some (pre, c, post) =>
        match upd_phone_number u with
        | Some p =>
            if phone_taken p (pre ++ post) then (Throw E11000, w)
            else (Normal 1%nat, with_contacts (pre ++ apply_set u c :: post) w)
        | None => (Normal 1%nat, with_contacts (pre ++ apply_set u c :: post) w)
        end
    end).

(** [deleteOne(filter)]; the result is [deletedCount]. *)
Definition deleteOne (f : ContactFilter) : Async nat :=
  variable v "contactsCollection" ;;
  call contacts_coll DeleteOne (fun w =>
    match split_first (matches f) (contacts w) with
    | None => (Normal 0%nat, w)
    | Some (pre, _, post) => (Normal 1%nat, with_contacts (pre ++ post) w)
    end).

End Methods.
End contactsCollection.

Module broadcastCollection.
Section Methods.
Variable v : Variant.

Definition insertOne (message : string) (created_at : Z) : Async Broadcast.t :=
  variable v "broadcastCollection" ;;
  call broadcasts_coll InsertOne (fun w =>
    let doc := Broadcast.mk (next_oid w) message created_at in
    (Normal doc,
     with_next_oid (N.succ (next_oid w)) (with_broadcasts (broadcasts w ++ [doc]) w))).

Definition find (cursor : list Broadcast.t -> list Broadcast.t)
    : Async (list Broadcast.t) :=
  variable v "broadcastCollection" ;;
  call broadcasts_coll Find (fun w => (Normal (cursor (broadcasts w)), w)).

End Methods.
End broadcastCollection.

(** The VIP handlers name their collection [vipPhotosCollection]. *)
Module vipPhotosCollection.
Section Methods.
Variable v : Variant.

Definition insertOne (file_url caption type : string) (created_at : Z)
    : Async VipMedia.t :=
  variable v "vipPhotosCollection" ;;
  call vip_photos_coll InsertOne (fun w =>
    let doc := VipMedia.mk (next_oid w) file_url caption type created_at in
    (Normal doc,
     with_next_oid (N.succ (next_oid w)) (with_vip_photos (vip_photos w ++ [doc]) w))).

Definition find (cursor : list VipMedia.t -> list VipMedia.t)
    : Async (list VipMedia.t) :=
  variable v "vipPhotosCollection" ;;
  call vip_photos_coll Find (fun w => (Normal (cursor (vip_photos w)), w)).

End Methods.
End vipPhotosCollection.

(** ** Responses *)

Inductive Body : Type :=
| Error (error : string)
| Health (status service : string)
| Count (count : nat)
| Contacts (contacts : list Contact.t)
| ContactSaved (message : string) (contact : Contact.t)
| ContactUpdated (message : string) (contact : option Contact.t)
| Message (message : string)
| Success
| Posted (post : Broadcast.t)
| MediaSaved (media : VipMedia.t)
| Photos (photos : list VipMedia.t)
| Latest (message : option Broadcast.t)
| VCardFile (content_type content_disposition content : string)
| NoRoute.

Record Response : Type := mkResponse {
  status : nat;
  body : Body
}.

(** [res.status(n).json(b)]; [res.json(b)] alone answers 200. *)
Definition json (n : nat) (b : Body) : Response := mkResponse n b.

Definition Handler : Type := World -> Response * World.

(** [try { body } catch (err) { handler }] *)
Definition handle (body : Async Response) (catch : JsError -> Response) : Handler :=
  fun w =>
    match body w with
    | (Normal r, w') => (r, w')
    | (Throw err, w') => (catch err, w')
    end.

(** [err.code === n] *)
Definition code_is (err : JsError) (n : Z) : bool :=
  match code err with
  | Some c => Z.eqb c n
  | None => false
  end.

(** ** Constants *)

Definition SUPPORT_LINK : string :=
  "https://whatsapp.com/channel/0029Vb6b864Id7nIEgOrMe24".

Definition blockedNumbers : list string := ["254713380848"; "254712345678"].

(** The emoji appended to the display name: a skull in the first file, a fire
    in the second. *)
Definition suffix (v : Variant) : string :=
  match v with
  | vip_variant => "💀"
  | base_variant => "🔥"
  end.

Definition LF : string := String (ascii_of_nat 10) EmptyString.

(** ** Public contact routes *)

(** [GET /health] *)
Definition get_health : Handler :=
  fun w => (json 200 (Health "OK" "NUTTERX VCF API"), w).

(** [GET /api/contacts/count] *)
Definition get_contacts_count (v : Variant) : Handler :=
  handle
    (count <- contactsCollection.countDocuments v ;;
     ret (json 200 (Count count)))
    (fun _ => json 500 (Error "Failed to fetch count")).

(** [GET /api/contacts] *)
Definition get_contacts (v : Variant) : Handler :=
  handle
    (contacts <- contactsCollection.find v
                   (fun docs => limit 250 (sort_asc Contact.created_at docs)) ;;
     ret (json 200 (Contacts contacts)))
    (fun _ => json 500 (Error "Failed to fetch contacts")).

(** [res.send(vcfContent)] after the two [setHeader] calls of lines 117-118. *)
Definition vcf_attachment (vcfContent : string) : Body :=
  VCardFile "text/vcard; charset=utf-8" "attachment; filename=NUTTERX.vcf" vcfContent.

(** The body of the [forEach] callback of the download route: six appends to
    [vcfContent]. *)
Definition append_vcard (v : Variant) (vcfContent : string) (contact : Contact.t)
    : string :=
  let displayName := Contact.name contact ++ suffix v in
  let vcfContent := vcfContent ++ "BEGIN:VCARD" ++ LF in
  let vcfContent := vcfContent ++ "VERSION:3.0" ++ LF in
  let vcfContent := vcfContent ++ "FN:" ++ displayName ++ LF in
  let vcfContent := vcfContent ++ "N:" ++ displayName ++ ";;;;" ++ LF in
  let vcfContent := vcfContent ++ "TEL;TYPE=CELL:" ++ Contact.phone_number contact ++ LF in
  let vcfContent := vcfContent ++ "END:VCARD" ++ LF ++ LF in
  vcfContent.

(** [GET /api/contacts/download] *)
Definition get_contacts_download (v : Variant) : Handler :=
  handle
    (contacts <- contactsCollection.find v natural_order ;;
     if (length contacts =? 0)%nat then
       ret (json 404 (Error "No contacts available"))
     else
       let vcfContent := fold_left (append_vcard v) contacts "" in
       ret (json 200 (vcf_attachment vcfContent)))
    (fun _ => json 500 (Error "Failed to generate VCF file")).

(** [POST /api/contacts] *)
Definition post_contacts (v : Variant) (now : Z) (name phone_number : option string)
    : Handler :=
  handle
    (if negb (Js.truthy name) || negb (Js.truthy phone_number) then
       ret (json 400 (Error "Name and phone number are required"))
     else
       let cleaned := cleanedPhone (Js.str phone_number) in
       if length_out_of_range cleaned then
         ret (json 400 (Error "Invalid phone number (10–15 digits)"))
       else if Js.includes blockedNumbers cleaned then
         ret (json 403 (Error "This number is restricted from registering."))
       else
         newContact <- contactsCollection.insertOne v
                         (Js.str name) cleaned SUPPORT_LINK now ;;
         ret (json 201 (ContactSaved "Contact saved successfully" newContact)))
    (fun err =>
       if code_is err 11000 then json 409 (Error "Phone number already registered")
       else json 500 (Error "Failed to save contact")).

(** Lines 172-176: the write and the read-back of [PUT /api/contacts]. *)
Definition put_contacts_write (v : Variant) (old_phone_number : string)
    (update : Update) : Async Response :=
  matchedCount <- contactsCollection.updateOne v
                    (by_phone_number old_phone_number) update ;;
  if (matchedCount =? 0)%nat then
    ret (json 404 (Error "Contact not found"))
  else
    updatedContact <- contactsCollection.findOne v
      (by_phone_number (Js.or_else (upd_phone_number update) old_phone_number)) ;;
    ret (json 200 (ContactUpdated "Contact updated successfully" updatedContact)).

(** [PUT /api/contacts] *)
Definition put_contacts (v : Variant)
    (old_phone_number new_name new_phone_number : option string) : Handler :=
  handle
    (if negb (Js.truthy old_phone_number)
        || (negb (Js.truthy new_name) && negb (Js.truthy new_phone_number)) then
       ret (json 400 (Error
         "Required data missing contact dev Nutterx +254713881613 to update for you."))
     else
       let update := mkUpdate None None in
       let update :=
         if Js.truthy new_name then mkUpdate new_name (upd_phone_number update)
         else update in
       if Js.truthy new_phone_number then
         let cleaned := cleanedPhone (Js.str new_phone_number) in
         if length_out_of_range cleaned then
           ret (json 400 (Error "Invalid phone number"))
         else
           let update := mkUpdate (upd_name update) (Some cleaned) in
           put_contacts_write v (Js.str old_phone_number) update
       else
         put_contacts_write v (Js.str old_phone_number) update)
    (fun err =>
       if code_is err 11000 then json 409 (Error "Phone number already registered")
       else json 500 (Error "Failed to update contact")).

(** [GET /api/broadcast/latest]; [post[0] || null] is the head of the array. *)
Definition get_broadcast_latest (v : Variant) : Handler :=
  handle
    (post <- broadcastCollection.find v
               (fun docs => limit 1 (sort_desc Broadcast.created_at docs)) ;;
     ret (json 200 (Latest (hd_error post))))
    (fun _ => json 500 (Error "Failed to fetch broadcast")).

(** ** Admin routes *)

(** [POST /api/admin/login] *)
Definition post_admin_login (ADMIN_KEY : string) (key : option string) : Handler :=
  fun w =>
    if negb (Js.truthy key) then (json 400 (Error "Admin key required"), w)
    else if Js.strict_neq key ADMIN_KEY then (json 401 (Error "Invalid admin key"), w)
    else (json 200 Success, w).

(** The middleware [adminAuth(req, res, next)]; [key] is
    [req.headers["x-admin-key"]]. *)
Definition adminAuth (ADMIN_KEY : string) (key : option string) (next : Handler)
    : Handler :=
  if negb (Js.truthy key) || Js.strict_neq key ADMIN_KEY then
    fun w => (json 401 (Error "Unauthorized"), w)
  else next.

(** [POST /api/admin/broadcast] *)
Definition post_admin_broadcast (v : Variant) (now : Z) (message : option string)
    : Handler :=
  handle
    (if negb (Js.truthy message) then
       ret (json 400 (Error "Message required"))
     else
       post <- broadcastCollection.insertOne v (Js.str message) now ;;
       ret (json 200 (Posted post)))
    (fun _ => json 500 (Error "Failed to send broadcast")).

(** [GET /api/admin/contacts] *)
Definition get_admin_contacts (v : Variant) : Handler :=
  handle
    (contacts <- contactsCollection.find v (sort_asc Contact.created_at) ;;
     ret (json 200 (Contacts contacts)))
    (fun _ => json 500 (Error "Failed to fetch contacts")).

(** [new ObjectId(id)] on a string, as the driver's bson library defines it: the
    string must be 24 hexadecimal characters, and anything else throws.
    (Releases of the library before 6.0 also take a string of 12 characters;
    the properties below only depend on the constructor throwing on the
    strings it refuses.) *)
Definition hex_value (c : ascii) : option N :=
  let n := N_of_ascii c in
  if (48 <=? n)%N && (n <=? 57)%N then Some (n - 48)%N
  else if (65 <=? n)%N && (n <=? 70)%N then Some (n - 55)%N
  else if (97 <=? n)%N && (n <=? 102)%N then Some (n - 87)%N
  else None.

Fixpoint parse_hex (s : string) (acc : N) : option N :=
  match s with
  | EmptyString => Some acc
  | String c rest =>
      match hex_value c with
      | Some d => parse_hex rest (16 * acc + d)%N
      | None => None
      end
  end.

Definition ObjectId_of_string (id : string) : option ObjectId :=
  if (String.length id =? 24)%nat then parse_hex id 0%N else None.

Definition new_ObjectId (id : string) : Async ObjectId :=
  match ObjectId_of_string id with
  | Some oid => ret oid
  | None => throw BSONError
  end.

(** Lines 240-244: the write and the read-back of the admin update. *)
Definition put_admin_contacts_write (v : Variant) (id : string) (update : Update)
    : Async Response :=
  oid <- new_ObjectId id ;;
  matchedCount <- contactsCollection.updateOne v (by_id oid) update ;;
  if (matchedCount =? 0)%nat then
    ret (json 404 (Error "Contact not found"))
  else
    oid <- new_ObjectId id ;;
    updatedContact <- contactsCollection.findOne v (by_id oid) ;;
    ret (json 200 (ContactUpdated "Contact updated successfully" updatedContact)).

(** [PUT /api/admin/contacts/:id], after [adminAuth] *)
Definition put_admin_contacts (v : Variant) (id : string)
    (name phone_number : option string) : Handler :=
  handle
    (if negb (Js.truthy name) && negb (Js.truthy phone_number) then
       ret (json 400 (Error "Nothing to update"))
     else
       let update := mkUpdate None None in
       let update :=
         if Js.truthy name then mkUpdate name (upd_phone_number update)
         else update in
       if Js.truthy phone_number then
         let cleaned := cleanedPhone (Js.str phone_number) in
         if length_out_of_range cleaned then
           ret (json 400 (Error "Invalid phone number"))
         else
           let update := mkUpdate (upd_name update) (Some cleaned) in
           put_admin_contacts_write v id update
       else
         put_admin_contacts_write v id update)
    (fun err =>
       if code_is err 11000 then json 409 (Error "Phone number already registered")
       else json 500 (Error "Failed to update contact")).

(** [DELETE /api/admin/contacts/:id], after [adminAuth] *)
Definition delete_admin_contacts (v : Variant) (id : string) : Handler :=
  handle
    (oid <- new_ObjectId id ;;
     deletedCount <- contactsCollection.deleteOne v (by_id oid) ;;
     if (deletedCount =? 0)%nat then
       ret (json 404 (Error "Contact not found"))
     else
       ret (json 200 (Message "Contact deleted successfully")))
    (fun _ => json 500 (Error "Failed to delete contact")).

(** ** VIP media routes (first file only) *)

(** A file as [multer.memoryStorage()] hands it over. *)
Record File : Type := mkFile {
  fieldname : string;
  mimetype : string;
  buffer : list byte
}.

(** [allowedTypes[type]]: an own property, a property inherited from
    [Object.prototype], or [undefined]. *)
Inductive Property (A : Type) : Type :=
| Own (value : A)
| Inherited
| Undefined.
Arguments Own {A} value.
Arguments Inherited {A}.
Arguments Undefined {A}.

Definition Object_prototype_keys : list string :=
  ["constructor"; "__defineGetter__"; "__defineSetter__"; "hasOwnProperty";
   "__lookupGetter__"; "__lookupSetter__"; "isPrototypeOf";
   "propertyIsEnumerable"; "toString"; "valueOf"; "__proto__"; "toLocaleString"].

Definition allowedTypes (type : string) : Property (list string) :=
  if String.eqb type "photo" then Own ["image/jpeg"; "image/png"; "image/webp"]
  else if String.eqb type "video" then Own ["video/mp4"; "video/webm"]
  else if String.eqb type "audio" then Own ["audio/mpeg"; "audio/mp3"; "audio/ogg"]
  else if Js.includes Object_prototype_keys type then Inherited
  else Undefined.

(** [p?.includes(x)], read as a condition: [undefined] is falsy, and an
    inherited member has no [includes] to call. *)
Definition optional_includes (p : Property (list string)) (x : string) : Async bool :=
  match p with
  | Own xs => ret (Js.includes xs x)
  | Undefined => ret false
  | Inherited => throw TypeError
  end.

(** [buffer.toString("base64")] *)
Definition base64_alphabet : string :=
  "ABCDEFGHIJKLMNOPQRSTUVWXYZabcdefghijklmnopqrstuvwxyz0123456789+/".

Definition base64_char (n : N) : ascii :=
  match String.get (N.to_nat (N.land n 63)) base64_alphabet with
  | Some c => c
  | None => "="%char
  end.

Fixpoint base64 (bytes : list byte) : string :=
  match bytes with
  | [] => ""
  | [a] =>
      let n := N.shiftl (Byte.to_N a) 16 in
      String (base64_char (N.shiftr n 18))
        (String (base64_char (N.shiftr n 12)) "==")
  | [a; b] =>
      let n := N.lor (N.shiftl (Byte.to_N a) 16) (N.shiftl (Byte.to_N b) 8) in
      String (base64_char (N.shiftr n 18))
        (String (base64_char (N.shiftr n 12))
           (String (base64_char (N.shiftr n 6)) "="))
  | a :: b :: c :: rest =>
      let n := N.lor (N.lor (N.shiftl (Byte.to_N a) 16) (N.shiftl (Byte.to_N b) 8))
                     (Byte.to_N c) in
      String (base64_char (N.shiftr n 18))
        (String (base64_char (N.shiftr n 12))
           (String (base64_char (N.shiftr n 6))
              (String (base64_char n) (base64 rest))))
  end.

(** [POST /api/admin/vip/send-media], after [adminAuth] and [upload.any()] *)
Definition post_admin_vip_send_media (v : Variant) (now : Z) (files : list File)
    (caption type : option string) : Handler :=
  handle
    (let uploadedFile :=
       match Js.find (fun f => String.eqb (fieldname f) "file") files with
       | Some f => Some f
       | None => Js.find (fun f => String.eqb (fieldname f) "image") files
       end in
     match uploadedFile with
     | None => ret (json 400 (Error "Media file is required"))
     | Some uploadedFile =>
         let caption := Js.default caption "" in
         let type := Js.default type "photo" in
         allowed <- optional_includes (allowedTypes type) (mimetype uploadedFile) ;;
         if negb allowed then
           ret (json 400 (Error ("Invalid " ++ type ++ " file type")))
         else
           let base64 := base64 (buffer uploadedFile) in
           let fileUrl := "data:" ++ mimetype uploadedFile ++ ";base64," ++ base64 in
           media <- vipPhotosCollection.insertOne v fileUrl caption type now ;;
           ret (json 200 (MediaSaved media))
     end)
    (fun _ => json 500 (Error "Failed to send VIP media")).

(** [GET /api/vip/photos] *)
Definition get_vip_photos (v : Variant) : Handler :=
  handle
    (photos <- vipPhotosCollection.find v (sort_desc VipMedia.created_at) ;;
     ret (json 200 (Photos photos)))
    (fun _ => json 500 (Error "Failed to fetch VIP photos")).

(** ** The application: routes in registration order *)

Inductive Route : Type :=
| GET_health
| GET_contacts_count
| GET_contacts
| GET_contacts_download
| POST_contacts (name phone_number : option string)
| PUT_contacts (old_phone_number new_name new_phone_number : option string)
| POST_admin_login (key : option string)
| POST_admin_broadcast (message : option string)
| GET_admin_contacts
| PUT_admin_contacts (id : string) (name phone_number : option string)
| DELETE_admin_contacts (id : string)
| POST_admin_vip_send_media (files : list File) (caption type : option string)
| GET_vip_photos
| GET_broadcast_latest.

Record Request : Type := mkRequest {
  x_admin_key : option string;
  route : Route
}.

(** A path no route is registered for. *)
Definition no_route : Handler := fun w => (json 404 NoRoute, w).

Definition app (v : Variant) (ADMIN_KEY : string) (now : Z) (req : Request) : Handler :=
  match route req with
  | GET_health => get_health
  | GET_contacts_count => get_contacts_count v
  | GET_contacts => get_contacts v
  | GET_contacts_download => get_contacts_download v
  | POST_contacts name phone_number => post_contacts v now name phone_number
  | PUT_contacts old_phone_number new_name new_phone_number =>
      put_contacts v old_phone_number new_name new_phone_number
  | POST_admin_login key => post_admin_login ADMIN_KEY key
  | POST_admin_broadcast message =>
      adminAuth ADMIN_KEY (x_admin_key req) (post_admin_broadcast v now message)
  | GET_admin_contacts =>
      adminAuth ADMIN_KEY (x_admin_key req) (get_admin_contacts v)
  | PUT_admin_contacts id name phone_number =>
      adminAuth ADMIN_KEY (x_admin_key req) (put_admin_contacts v id name phone_number)
  | DELETE_admin_contacts id =>
      adminAuth ADMIN_KEY (x_admin_key req) (delete_admin_contacts v id)
  | POST_admin_vip_send_media files caption type =>
      match v with
      | vip_variant =>
          adminAuth ADMIN_KEY (x_admin_key req)
            (post_admin_vip_send_media v now files caption type)
      | base_variant => no_route
      end
  | GET_vip_photos =>
      match v with
      | vip_variant => get_vip_photos v
      | base_variant => no_route
      end
  | GET_broadcast_latest => get_broadcast_latest v
  end.

(** The routes registered with [adminAuth] in their middleware chain. *)
Definition admin_route (v : Variant) (r : Route) : bool :=
  match r with
  | POST_admin_broadcast _ | GET_admin_contacts
  | PUT_admin_contacts _ _ _ | DELETE_admin_contacts _ => true
  | POST_admin_vip_send_media _ _ _ =>
      match v with vip_variant => true | base_variant => false end
  | _ => false
  end.

(** ** Sample data *)

Definition empty_store : World := mkWorld [] [] [] 1%N true [].

Definition amy : Contact.t :=
  Contact.mk 1%N "Amy" "254712000111" SUPPORT_LINK 1000.

Definition bob : Contact.t :=
  Contact.mk 2%N "Bob;Jr" "15550001234" SUPPORT_LINK 2000.

Definition two_contacts : World := mkWorld [amy; bob] [] [] 3%N true [].

(** * Vocabulary of the properties *)

(** A canonical phone string: decimal digits only. *)
Definition all_digits (s : string) : Prop :=
  Forall (fun c => Js.is_digit c = true) (list_ascii_of_string s).

(** Every stored [phone_number] is canonical. *)
Definition canonical_store (w : World) : Prop :=
  Forall (fun c => all_digits (Contact.phone_number c)) (contacts w).

(** The request passes the three local checks of [POST /api/contacts]. *)
Definition registration_valid (name phone_number : option string) : bool :=
  Js.truthy name && Js.truthy phone_number
  && negb (length_out_of_range (cleanedPhone (Js.str phone_number)))
  && negb (Js.includes blockedNumbers (cleanedPhone (Js.str phone_number))).

(** The [update] object the two update handlers build from the body. *)
Definition update_of (name phone_number : option string) : Update :=
  mkUpdate (if Js.truthy name then name else None)
           (if Js.truthy phone_number
            then Some (cleanedPhone (Js.str phone_number)) else None).

(** The [catch] clause shared by the two update handlers. *)
Definition update_catch (err : JsError) : Response :=
  if code_is err 11000 then json 409 (Error "Phone number already registered")
  else json 500 (Error "Failed to update contact").

(** The text blob made of a list of blocks, in order. *)
Definition concat_all (blocks : list string) : string :=
  fold_right String.append "" blocks.

(** The vCard 3.0 record of the export contract, line by line, as the
    specification writes it. *)
Definition vcard_lines (v : Variant) (contact : Contact.t) : list string :=
  [ "BEGIN:VCARD";
    "VERSION:3.0";
    "FN:" ++ Contact.name contact ++ suffix v;
    "N:" ++ Contact.name contact ++ suffix v ++ ";;;;";
    "TEL;TYPE=CELL:" ++ Contact.phone_number contact;
    "END:VCARD" ].

(** The line break of the export contract: one line feed character. *)
Definition line_break : string := String (ascii_of_nat 10) EmptyString.

(** Each line ends with a line break, and a blank line closes the block. *)
Definition vcard_block (v : Variant) (contact : Contact.t) : string :=
  concat_all (map (fun line => line ++ line_break) (vcard_lines v contact))
  ++ line_break.

(** The file the handler picks: the first part named [file], else the first
    part named [image]. *)
Definition uploaded (files : list File) : option File :=
  match Js.find (fun f => String.eqb (fieldname f) "file") files with
  | Some f => Some f
  | None => Js.find (fun f => String.eqb (fieldname f) "image") files
  end.

(** A computation keeps [P], however it completes. *)
Definition preserves {A : Type} (P : World -> Prop) (m : Async A) : Prop :=
  forall w, P w -> P (snd (m w)).

(** A handler keeps the store canonical. *)
Definition keeps_canonical (h : Handler) : Prop :=
  forall w, canonical_store w -> canonical_store (snd (h w)).

(** Sample inputs. *)
Definition png_upload : list File :=
  [mkFile "file" "image/png" (list_byte_of_string "PNG")].

Definition three_broadcasts : World :=
  mkWorld []
    [Broadcast.mk 1%N "first" 100; Broadcast.mk 2%N "newest" 300;
     Broadcast.mk 3%N "second" 200]
    [] 4%N true [].

(** ** Vocabulary of the further properties *)

(** A phone number as the three writing handlers store it: decimal digits
    only, 10 to 15 of them. *)
Definition phone_ok (p : string) : Prop :=
  all_digits p /\ (10 <= String.length p <= 15)%nat.

(** An [update] object whose phone number, when set, is such a number. *)
Definition update_ok (u : Update) : Prop :=
  forall p, upd_phone_number u = Some p -> phone_ok p.

(** What one request can do to the contacts collection: nothing, one insert of
    a fresh contact, one [$set] on one contact, or one removal. *)
Inductive contacts_step (now : Z) (fresh : ObjectId)
    : list Contact.t -> list Contact.t -> Prop :=
| step_none (cs : list Contact.t) : contacts_step now fresh cs cs
| step_insert (cs : list Contact.t) (name phone : string) :
    name <> "" -> phone_ok phone -> phone_taken phone cs = false ->
    Js.includes blockedNumbers phone = false ->
    contacts_step now fresh cs
      (cs ++ [Contact.mk fresh name phone SUPPORT_LINK now])
| step_set (pre post : list Contact.t) (c : Contact.t) (u : Update) :
    update_ok u ->
    (forall p, upd_phone_number u = Some p -> phone_taken p (pre ++ post) = false) ->
    (forall n, upd_name u = Some n -> n <> "") ->
    contacts_step now fresh (pre ++ c :: post) (pre ++ apply_set u c :: post)
| step_remove (pre post : list Contact.t) (c : Contact.t) :
    contacts_step now fresh (pre ++ c :: post) (pre ++ post).


(** No two contacts hold the same phone number. *)
Definition phones_unique (cs : list Contact.t) : Prop :=
  NoDup (map Contact.phone_number cs).

(** The stored data of two worlds agree (the trace may differ). *)
Definition same_data (w w' : World) : Prop :=
  contacts w' = contacts w /\ broadcasts w' = broadcasts w
  /\ vip_photos w' = vip_photos w /\ next_oid w' = next_oid w.

(** The routes answered by an [app.get]. *)
Definition is_get (r : Route) : bool :=
  match r with
  | GET_health | GET_contacts_count | GET_contacts | GET_contacts_download
  | GET_admin_contacts | GET_vip_photos | GET_broadcast_latest => true
  | _ => false
  end.

(** Requests served one after the other ([app.listen]): each arrives at some
    time, with the store answering or not. *)
Record Arrival : Type := mkArrival {
  arrival_time : Z;
  store_answers : bool;
  arrival_request : Request
}.

Definition with_online (b : bool) (w : World) : World :=
  mkWorld (contacts w) (broadcasts w) (vip_photos w) (next_oid w) b (trace w).

Fixpoint serve (v : Variant) (ADMIN_KEY : string) (arrivals : list Arrival)
    (w : World) : World :=
  match arrivals with
  | [] => w
  | a :: rest =>
      serve v ADMIN_KEY rest
        (snd (app v ADMIN_KEY (arrival_time a) (arrival_request a)
                (with_online (store_answers a) w)))
  end.

Definition amy_bob_cy : World :=
  mkWorld [amy; bob; Contact.mk 3%N "Cy" "2547000111222" SUPPORT_LINK 3000]
          [] [] 4%N true [].

(** The order of [.sort({ created_at: 1 })]. *)
Definition older_or_same (a b : Contact.t) : Prop :=
  (Contact.created_at a <= Contact.created_at b)%Z.

(** * Properties *)

(** ** Strings *)

Lemma append_assoc (a b c : string) : (a ++ b) ++ c = a ++ (b ++ c).
Proof.
  induction a as [|x a IH]; simpl; [reflexivity | now rewrite IH].
Qed.

Lemma append_empty_r (a : string) : a ++ "" = a.
Proof.
  induction a as [|x a IH]; simpl; [reflexivity | now rewrite IH].
Qed.

Lemma truthy_Some (s : string) : Js.truthy (Some s) = true <-> s <> "".
Proof.
  unfold Js.truthy. destruct (String.eqb_spec s ""); simpl; split; congruence.
Qed.

(** What [replace(/\D/g, ...)] keeps is the sub-list of the decimal digits. *)
Lemma cleanedPhone_filter (raw : string) :
  list_ascii_of_string (cleanedPhone raw)
  = filter Js.is_digit (list_ascii_of_string raw).
Proof.
  unfold cleanedPhone, Js.regex_D.
  induction raw as [|c rest IH]; simpl; [reflexivity|].
  destruct (Js.is_digit c); simpl; now rewrite IH.
Qed.

Lemma cleanedPhone_all_digits (raw : string) : all_digits (cleanedPhone raw).
Proof.
  unfold all_digits. rewrite cleanedPhone_filter.
  apply Forall_forall. intros c Hc. apply filter_In in Hc. tauto.
Qed.

(** A canonical string is left alone. *)
Lemma cleanedPhone_fixpoint (s : string) : all_digits s -> cleanedPhone s = s.
Proof.
  unfold all_digits, cleanedPhone, Js.regex_D.
  induction s as [|c rest IH]; simpl; intros H; [reflexivity|].
  inversion H as [|? ? Hc Hrest]; subst. rewrite Hc. simpl. now rewrite IH.
Qed.

Lemma length_out_of_range_false (cleaned : string) :
  length_out_of_range cleaned = false <-> (10 <= String.length cleaned <= 15)%nat.
Proof.
  unfold length_out_of_range. rewrite orb_false_iff, !Nat.ltb_ge. lia.
Qed.

Lemma length_out_of_range_true (cleaned : string) :
  length_out_of_range cleaned = true <-> ~ (10 <= String.length cleaned <= 15)%nat.
Proof.
  unfold length_out_of_range. rewrite orb_true_iff, !Nat.ltb_lt. lia.
Qed.


(** ** Running the collection methods *)

Lemma variable_contactsCollection (v : Variant) (w : World) :
  variable v "contactsCollection" w = (Normal tt, w).
Proof. destruct v; reflexivity. Qed.

Lemma variable_broadcastCollection (v : Variant) (w : World) :
  variable v "broadcastCollection" w = (Normal tt, w).
Proof. destruct v; reflexivity. Qed.

Lemma variable_vipPhotosCollection (v : Variant) (w : World) :
  variable v "vipPhotosCollection" w = (Throw ReferenceError, w).
Proof. destruct v; reflexivity. Qed.

Lemma contacts_find_run (v : Variant) (cursor : list Contact.t -> list Contact.t)
    (w : World) :
  contactsCollection.find v cursor w =
    (if online w then Normal (cursor (contacts w)) else Throw MongoNetworkError,
     log (contacts_coll, Find) w).
Proof.
  unfold contactsCollection.find, bind, call.
  rewrite variable_contactsCollection. simpl. now destruct (online w).
Qed.

Lemma contacts_insertOne_run (v : Variant) (name phone url : string) (now : Z)
    (w : World) :
  contactsCollection.insertOne v name phone url now w =
    let w1 := log (contacts_coll, InsertOne) w in
    if online w then
      if phone_taken phone (contacts w) then (Throw E11000, w1)
      else
        let doc := Contact.mk (next_oid w) name phone url now in
        (Normal doc,
         with_next_oid (N.succ (next_oid w)) (with_contacts (contacts w ++ [doc]) w1))
    else (Throw MongoNetworkError, w1).
Proof.
  unfold contactsCollection.insertOne, bind, call.
  rewrite variable_contactsCollection. simpl. now destruct (online w).
Qed.

(** ** vCard export *)

Lemma append_vcard_block (v : Variant) (acc : string) (contact : Contact.t) :
  append_vcard v acc contact = acc ++ vcard_block v contact.
Proof.
  unfold append_vcard, vcard_block, vcard_lines, concat_all. cbn [map fold_right].
  repeat rewrite append_assoc. unfold LF, line_break. cbn [String.append].
  rewrite ?append_empty_r. reflexivity.
Qed.

Lemma fold_append_vcard (v : Variant) (cs : list Contact.t) (acc : string) :
  fold_left (append_vcard v) cs acc = acc ++ concat_all (map (vcard_block v) cs).
Proof.
  revert acc. induction cs as [|c cs IH]; intros acc; simpl.
  - now rewrite append_empty_r.
  - rewrite IH, append_vcard_block, append_assoc. reflexivity.
Qed.

Lemma concat_all_app (xs ys : list string) :
  concat_all (xs ++ ys) = concat_all xs ++ concat_all ys.
Proof.
  induction xs as [|x xs IH]; simpl; [reflexivity|].
  now rewrite IH, append_assoc.
Qed.

(** ** Registration, step by step *)

Lemma post_contacts_run (v : Variant) (now : Z) (name phone_number : option string)
    (w : World) :
  post_contacts v now name phone_number w =
    let cleaned := cleanedPhone (Js.str phone_number) in
    if negb (Js.truthy name) || negb (Js.truthy phone_number) then
      (json 400 (Error "Name and phone number are required"), w)
    else if length_out_of_range cleaned then
      (json 400 (Error "Invalid phone number (10–15 digits)"), w)
    else if Js.includes blockedNumbers cleaned then
      (json 403 (Error "This number is restricted from registering."), w)
    else
      let w1 := log (contacts_coll, InsertOne) w in
      if online w then
        if phone_taken cleaned (contacts w) then
          (json 409 (Error "Phone number already registered"), w1)
        else
          let doc := Contact.mk (next_oid w) (Js.str name) cleaned SUPPORT_LINK now in
          (json 201 (ContactSaved "Contact saved successfully" doc),
           with_next_oid (N.succ (next_oid w)) (with_contacts (contacts w ++ [doc]) w1))
      else (json 500 (Error "Failed to save contact"), w1).
Proof.
  unfold post_contacts, handle. cbv zeta.
  destruct (negb (Js.truthy name) || negb (Js.truthy phone_number)); [reflexivity|].
  destruct (length_out_of_range _); [reflexivity|].
  destruct (Js.includes blockedNumbers _); [reflexivity|].
  unfold bind. rewrite contacts_insertOne_run. cbv zeta.
  destruct (online w); [|reflexivity].
  destruct (phone_taken _ _); reflexivity.
Qed.

(** ** The range check inside the registration handler *)

Lemma post_contacts_checkPhone (v : Variant) (now : Z) (name : option string)
    (phone_number : string) (w : World) :
  Js.truthy name = true -> Js.truthy (Some phone_number) = true ->
  (checkPhone phone_number = InvalidPhone
   <-> post_contacts v now name (Some phone_number) w
       = (json 400 (Error "Invalid phone number (10–15 digits)"), w)).
Proof.
  intros Hn Hp. rewrite post_contacts_run, Hn, Hp. cbv zeta.
  cbn [negb orb Js.str]. unfold checkPhone.
  destruct (length_out_of_range (cleanedPhone phone_number)).
  - split; reflexivity.
  - split; [discriminate|].
    destruct (Js.includes _ _); [discriminate|].
    destruct (online w); [|discriminate].
    destruct (phone_taken _ _); discriminate.
Qed.

(** C1. Normalisation keeps exactly the decimal digits of the raw text, in
    their order; the normalised string is accepted if and only if its length
    is between 10 and 15, and rejected as InvalidPhone otherwise.  The check is
    a total function of the raw string; the empty string normalises to the
    empty string and is rejected by the range check.  In the registration
    handler, a request that carries a name and a phone number is answered 400
    InvalidPhone exactly when the check rejects the number. *)
Theorem checkPhone_spec (raw : string) :
  list_ascii_of_string (cleanedPhone raw)
    = filter Js.is_digit (list_ascii_of_string raw)
  /\ (length_out_of_range (cleanedPhone raw) = false
      <-> (10 <= String.length (cleanedPhone raw) <= 15)%nat)
  /\ (checkPhone raw = PhoneAccepted (cleanedPhone raw)
      <-> (10 <= String.length (cleanedPhone raw) <= 15)%nat)
  /\ (checkPhone raw = InvalidPhone
      <-> ~ (10 <= String.length (cleanedPhone raw) <= 15)%nat)
  /\ cleanedPhone "" = "" /\ checkPhone "" = InvalidPhone
  /\ (forall v now name w,
        Js.truthy name = true -> Js.truthy (Some raw) = true ->
        (post_contacts v now name (Some raw) w
           = (mkResponse 400 (Error "Invalid phone number (10–15 digits)"), w)
         <-> ~ (10 <= String.length (cleanedPhone raw) <= 15)%nat)).
Proof.
  assert (Hinvalid : checkPhone raw = InvalidPhone
                     <-> ~ (10 <= String.length (cleanedPhone raw) <= 15)%nat).
  { unfold checkPhone. rewrite <- length_out_of_range_true.
    destruct (length_out_of_range (cleanedPhone raw)); split; congruence. }
  split; [apply cleanedPhone_filter|].
  split; [apply length_out_of_range_false|].
  split.
  { unfold checkPhone. rewrite <- length_out_of_range_false.
    destruct (length_out_of_range (cleanedPhone raw)); split; congruence. }
  split; [exact Hinvalid|].
  split; [reflexivity|]. split; [reflexivity|].
  intros v now name w Hn Hp.
  rewrite <- (post_contacts_checkPhone v now name raw w Hn Hp). exact Hinvalid.
Qed.

(** An empty phone number never reaches the range check of the handler: it is
    answered by the MissingField check. *)
Example post_contacts_empty_phone :
  post_contacts vip_variant 5 (Some "Amy") (Some "") empty_store
  = (mkResponse 400 (Error "Name and phone number are required"), empty_store).
Proof. reflexivity. Qed.

Lemma get_contacts_download_run (v : Variant) (w : World) :
  online w = true ->
  get_contacts_download v w =
    (match contacts w with
     | [] => json 404 (Error "No contacts available")
     | _ :: _ => json 200 (vcf_attachment (concat_all (map (vcard_block v) (contacts w))))
     end,
     log (contacts_coll, Find) w).
Proof.
  intros Hon. unfold get_contacts_download, handle, bind.
  rewrite contacts_find_run, Hon. unfold natural_order.
  destruct (contacts w) as [|c cs] eqn:E; [reflexivity|].
  cbn [length Nat.eqb]. unfold ret.
  rewrite fold_append_vcard. reflexivity.
Qed.

(** C2. The download fails with 404 NoContacts on an empty contact set; on a
    non-empty set the answer is the concatenation of one vCard 3.0 block per
    contact, each block being the six lines of the contract followed by a
    blank line, the name copied verbatim (no escaping), in the order in which
    the store holds the contacts.  That order is the creation order: a
    successful registration puts its contact, and so its block, last. *)
Theorem download_spec (v : Variant) (w : World) :
  online w = true ->
  get_contacts_download v w =
    (match contacts w with
     | [] => mkResponse 404 (Error "No contacts available")
     | _ :: _ =>
         mkResponse 200
           (VCardFile "text/vcard; charset=utf-8" "attachment; filename=NUTTERX.vcf"
              (concat_all (map (vcard_block v) (contacts w))))
     end,
     log (contacts_coll, Find) w)
  /\ (forall now name phone_number r w1,
        post_contacts v now name phone_number w = (r, w1) ->
        status r = 201%nat ->
        exists c,
          body r = ContactSaved "Contact saved successfully" c
          /\ contacts w1 = (contacts w ++ [c])%list
          /\ fst (get_contacts_download v w1) =
               mkResponse 200
                 (VCardFile "text/vcard; charset=utf-8"
                    "attachment; filename=NUTTERX.vcf"
                    (concat_all (map (vcard_block v) (contacts w))
                     ++ vcard_block v c))).
Proof.
  intros Hon. split; [now apply get_contacts_download_run|].
  intros now name phone r w1 Hrun H201.
  rewrite post_contacts_run in Hrun. cbv zeta in Hrun. rewrite Hon in Hrun.
  repeat match type of Hrun with
         | (if ?b then _ else _) = _ => destruct b
         end;
    inversion Hrun; subst; simpl in H201; try discriminate.
  eexists. split; [reflexivity|]. split; [reflexivity|].
  rewrite get_contacts_download_run by exact Hon.
  cbn [fst contacts with_next_oid with_contacts log].
  destruct (contacts w ++ _)%list as [|c cs] eqn:E.
  - now destruct (contacts w).
  - rewrite <- E, map_app, concat_all_app. simpl.
    now rewrite append_empty_r.
Qed.

Lemma download_spec_witness :
  get_contacts_download vip_variant two_contacts =
    (mkResponse 200
       (VCardFile "text/vcard; charset=utf-8" "attachment; filename=NUTTERX.vcf"
          "BEGIN:VCARD
VERSION:3.0
FN:Amy💀
N:Amy💀;;;;
TEL;TYPE=CELL:254712000111
END:VCARD

BEGIN:VCARD
VERSION:3.0
FN:Bob;Jr💀
N:Bob;Jr💀;;;;
TEL;TYPE=CELL:15550001234
END:VCARD

"),
     log (contacts_coll, Find) two_contacts).
Proof.
  exact (proj1 (download_spec vip_variant two_contacts eq_refl)).
Defined.

(** ** The deny-list *)

Lemma includes_In (xs : list string) (x : string) :
  Js.includes xs x = true <-> In x xs.
Proof.
  unfold Js.includes. rewrite existsb_exists. split.
  - intros [y [Hy E]]. apply String.eqb_eq in E. now subst.
  - intros H. exists x. split; [exact H | apply String.eqb_refl].
Qed.

Lemma blocked_is_well_formed (phone_number : string) :
  In (cleanedPhone phone_number) blockedNumbers ->
  Js.truthy (Some phone_number) = true
  /\ length_out_of_range (cleanedPhone phone_number) = false.
Proof.
  intros H. split.
  - apply truthy_Some. intros ->. simpl in H.
    destruct H as [H | [H | []]]; discriminate H.
  - simpl in H. destruct H as [H | [H | []]]; rewrite <- H; reflexivity.
Qed.

(** C3. A registration whose normalised phone is one of the two deny-listed
    numbers is answered 403 Forbidden whatever name is supplied, and the store
    is left as it was (no insert, no other store call).  The check comes after
    the MissingField check (an absent or empty name is answered 400 first) and
    after the InvalidPhone check (which a deny-listed number passes). *)
Theorem deny_list_forbidden (v : Variant) (now : Z) (name : option string)
    (phone_number : string) (w : World) :
  In (cleanedPhone phone_number) blockedNumbers ->
  (Js.truthy name = true ->
     post_contacts v now name (Some phone_number) w =
       (mkResponse 403 (Error "This number is restricted from registering."), w))
  /\ (Js.truthy name = false ->
       post_contacts v now name (Some phone_number) w =
         (mkResponse 400 (Error "Name and phone number are required"), w))
  /\ length_out_of_range (cleanedPhone phone_number) = false.
Proof.
  intros Hin. destruct (blocked_is_well_formed _ Hin) as [Hp Hlen].
  apply includes_In in Hin.
  repeat split; try assumption; intros Hn; rewrite post_contacts_run; cbv zeta;
    rewrite Hn, Hp; cbn [negb orb Js.str]; [|reflexivity].
  now rewrite Hlen, Hin.
Qed.

Lemma deny_list_forbidden_witness :
  post_contacts base_variant 7 (Some "Mallory") (Some "+254 713-380-848") two_contacts
  = (mkResponse 403 (Error "This number is restricted from registering."), two_contacts).
Proof.
  refine (proj1 (deny_list_forbidden base_variant 7 (Some "Mallory")
                   "+254 713-380-848" two_contacts _) eq_refl).
  simpl. left. reflexivity.
Defined.

(** ** Duplicates *)

(** C4. Registration answers 409 DuplicatePhone exactly when the request has
    passed the local checks and the insert is refused by the unique index on
    phone_number, that is when the store answers and already holds the
    normalised number.  A request that fails a local check (MissingField,
    InvalidPhone, Forbidden) is answered 400 or 403 with the store untouched,
    and a request that passes them makes one store call, the insert: there is
    no look-up before it. *)
Theorem duplicate_phone_spec (v : Variant) (now : Z) (name phone_number : option string)
    (w : World) :
  let cleaned := cleanedPhone (Js.str phone_number) in
  let attempt := contactsCollection.insertOne v (Js.str name) cleaned SUPPORT_LINK now w in
  let answer := post_contacts v now name phone_number w in
  (status (fst answer) = 409%nat
     <-> registration_valid name phone_number = true /\ fst attempt = Throw E11000)
  /\ (fst attempt = Throw E11000
        <-> online w = true /\ phone_taken cleaned (contacts w) = true)
  /\ (registration_valid name phone_number = false ->
        snd answer = w
        /\ (status (fst answer) = 400%nat \/ status (fst answer) = 403%nat))
  /\ (registration_valid name phone_number = true ->
        trace (snd answer) = (trace w ++ [(contacts_coll, InsertOne)])%list).
Proof.
  intros cleaned attempt answer. subst attempt answer.
  rewrite post_contacts_run, contacts_insertOne_run. cbv zeta. fold cleaned.
  unfold registration_valid. fold cleaned.
  destruct (Js.truthy name), (Js.truthy phone_number),
           (length_out_of_range cleaned), (Js.includes blockedNumbers cleaned),
           (online w), (phone_taken cleaned (contacts w));
    cbn [negb orb andb fst snd status json trace log E11000];
    repeat split; intros; try reflexivity; try discriminate;
    try (left; reflexivity); try (right; reflexivity);
    try match goal with H : _ /\ _ |- _ => destruct H; try discriminate end.
Qed.

(** ** The VIP upload *)

(** An upload that passes every check of the handler reaches
    [vipPhotosCollection.insertOne], whose identifier is bound nowhere: the
    ReferenceError goes to the [catch] clause and nothing is stored. *)
Lemma vip_send_media_accepted_upload_fails (now : Z) (files : list File)
    (caption type : option string) (f : File) (mimes : list string) (w : World) :
  uploaded files = Some f ->
  allowedTypes (Js.default type "photo") = Own mimes ->
  Js.includes mimes (mimetype f) = true ->
  post_admin_vip_send_media vip_variant now files caption type w =
    (json 500 (Error "Failed to send VIP media"), w).
Proof.
  intros Hf Hown Hin. unfold post_admin_vip_send_media, handle.
  fold (uploaded files). rewrite Hf. rewrite Hown.
  unfold bind, optional_includes, ret. rewrite Hin. cbn [negb].
  unfold vipPhotosCollection.insertOne, bind.
  rewrite variable_vipPhotosCollection. reflexivity.
Qed.

(** No request to the route is ever answered with success, and none changes
    the store. *)
Lemma vip_send_media_never_succeeds (now : Z) (files : list File)
    (caption type : option string) (w : World) :
  snd (post_admin_vip_send_media vip_variant now files caption type w) = w
  /\ status (fst (post_admin_vip_send_media vip_variant now files caption type w))
       <> 200%nat.
Proof.
  unfold post_admin_vip_send_media, handle. fold (uploaded files).
  destruct (uploaded files) as [f|]; [|split; [reflexivity | discriminate]].
  unfold bind, optional_includes.
  destruct (allowedTypes _) as [mimes| |]; unfold ret, throw;
    try (split; [reflexivity | discriminate]).
  destruct (Js.includes mimes (mimetype f)); cbn [negb];
    split; (reflexivity || discriminate).
Qed.

(** C5, at a well-formed upload.  An authorised PNG upload declared as a photo
    passes the allow-list, yet the answer is the generic 500 and no VipMedia
    record is stored, where the claim promises a stored record and success. *)
Theorem vip_send_media_png_fails :
  allowedTypes "photo" = Own ["image/jpeg"; "image/png"; "image/webp"]
  /\ app vip_variant "s3cret" 1700000000000
       (mkRequest (Some "s3cret")
          (POST_admin_vip_send_media png_upload (Some "hello") (Some "photo")))
       empty_store
     = (mkResponse 500 (Error "Failed to send VIP media"), empty_store).
Proof.
  split; vm_compute; reflexivity.
Qed.

(** The part of the contract the code does keep: a MIME type outside the
    allow-list of a declared photo, video or audio is answered 400. *)
Lemma vip_send_media_invalid_type (now : Z) (files : list File)
    (caption type : option string) (f : File) (mimes : list string) (w : World) :
  uploaded files = Some f ->
  allowedTypes (Js.default type "photo") = Own mimes ->
  Js.includes mimes (mimetype f) = false ->
  post_admin_vip_send_media vip_variant now files caption type w =
    (json 400 (Error ("Invalid " ++ Js.default type "photo" ++ " file type")), w).
Proof.
  intros Hf Hown Hin. unfold post_admin_vip_send_media, handle.
  fold (uploaded files). rewrite Hf, Hown.
  unfold bind, optional_includes, ret. rewrite Hin. reflexivity.
Qed.

(** ** The admin gate *)

Lemma adminAuth_rejects_key (ADMIN_KEY : string) (key : option string)
    (next : Handler) (w : World) :
  key = None \/ key = Some "" \/ key <> Some ADMIN_KEY ->
  adminAuth ADMIN_KEY key next w = (json 401 (Error "Unauthorized"), w).
Proof.
  unfold adminAuth, Js.truthy, Js.strict_neq.
  intros [-> | [-> | Hne]]; [reflexivity | reflexivity |].
  destruct key as [k|]; [|reflexivity].
  destruct (String.eqb_spec k ADMIN_KEY) as [-> | Hk]; [congruence|].
  now rewrite orb_true_r.
Qed.

(** C6. On every route registered with the adminAuth guard, a request whose
    x-admin-key header is absent, empty, or different from the configured
    secret is answered 401 Unauthorized and leaves the store, trace included,
    exactly as it was; the answer does not depend on the guarded handler,
    which is never run. *)
Theorem adminAuth_guards_admin_routes (v : Variant) (ADMIN_KEY : string) (now : Z)
    (req : Request) (w : World) :
  admin_route v (route req) = true ->
  x_admin_key req = None \/ x_admin_key req = Some ""
    \/ x_admin_key req <> Some ADMIN_KEY ->
  app v ADMIN_KEY now req w = (mkResponse 401 (Error "Unauthorized"), w)
  /\ forall next : Handler,
       adminAuth ADMIN_KEY (x_admin_key req) next w
       = (mkResponse 401 (Error "Unauthorized"), w).
Proof.
  intros Hroute Hkey. split; [|intros next; now apply adminAuth_rejects_key].
  unfold app. destruct (route req); try discriminate Hroute;
    try (now apply adminAuth_rejects_key).
  destruct v; [now apply adminAuth_rejects_key | discriminate Hroute].
Qed.

Lemma adminAuth_guards_admin_routes_witness :
  app vip_variant "s3cret" 5
    (mkRequest (Some "guess") (DELETE_admin_contacts "000000000000000000000001"))
    two_contacts
  = (mkResponse 401 (Error "Unauthorized"), two_contacts).
Proof.
  refine (proj1 (adminAuth_guards_admin_routes vip_variant "s3cret" 5
                   (mkRequest (Some "guess")
                      (DELETE_admin_contacts "000000000000000000000001"))
                   two_contacts eq_refl _)).
  right. right. discriminate.
Defined.

(** ** Updates, step by step *)

Lemma split_first_Some {A : Type} (p : A -> bool) (l pre post : list A) (x : A) :
  split_first p l = Some (pre, x, post) ->
  l = (pre ++ x :: post)%list /\ p x = true /\ Forall (fun y => p y = false) pre.
Proof.
  revert pre. induction l as [|y l IH]; intros pre H; simpl in H; [discriminate|].
  destruct (p y) eqn:Hy.
  - inversion H; subst. repeat split; [exact Hy | constructor].
  - destruct (split_first p l) as [[[pre' z] post']|]; [|discriminate].
    inversion H; subst. destruct (IH pre' eq_refl) as [-> [Hx Hpre]].
    repeat split; [exact Hx | now constructor].
Qed.

Lemma split_first_None {A : Type} (p : A -> bool) (l : list A) :
  Forall (fun y => p y = false) l -> split_first p l = None.
Proof.
  induction 1 as [|y l Hy _ IH]; simpl; [reflexivity|].
  now rewrite Hy, IH.
Qed.

Lemma contacts_updateOne_run (v : Variant) (f : ContactFilter) (u : Update) (w : World) :
  contactsCollection.updateOne v f u w =
    let w1 := log (contacts_coll, UpdateOne) w in
    if online w then
      match split_first (matches f) (contacts w) with
      | None => (Normal 0%nat, w1)
      | Some (pre, c, post) =>
          if match upd_phone_number u with
             | Some p => phone_taken p (pre ++ post)
             | None => false
             end
          then (Throw E11000, w1)
          else (Normal 1%nat, with_contacts (pre ++ apply_set u c :: post) w1)
      end
    else (Throw MongoNetworkError, w1).
Proof.
  unfold contactsCollection.updateOne, bind, call.
  rewrite variable_contactsCollection. cbn [log online contacts].
  destruct (online w); [|reflexivity].
  destruct (split_first _ _) as [[[pre c] post]|]; [|reflexivity].
  destruct (upd_phone_number u); [|reflexivity].
  now destruct (phone_taken _ _).
Qed.

Lemma contacts_findOne_run (v : Variant) (f : ContactFilter) (w : World) :
  contactsCollection.findOne v f w =
    (if online w then Normal (List.find (matches f) (contacts w))
     else Throw MongoNetworkError,
     log (contacts_coll, FindOne) w).
Proof.
  unfold contactsCollection.findOne, bind, call.
  rewrite variable_contactsCollection. cbn [log online contacts].
  now destruct (online w).
Qed.

Lemma contacts_deleteOne_run (v : Variant) (f : ContactFilter) (w : World) :
  contactsCollection.deleteOne v f w =
    let w1 := log (contacts_coll, DeleteOne) w in
    if online w then
      match split_first (matches f) (contacts w) with
      | None => (Normal 0%nat, w1)
      | Some (pre, _, post) => (Normal 1%nat, with_contacts (pre ++ post) w1)
      end
    else (Throw MongoNetworkError, w1).
Proof.
  unfold contactsCollection.deleteOne, bind, call.
  rewrite variable_contactsCollection. cbn [log online contacts].
  destruct (online w); [|reflexivity].
  now destruct (split_first _ _) as [[[pre c] post]|].
Qed.

(** The write of [PUT /api/contacts] under its [catch] clause. *)
Lemma put_contacts_write_run (v : Variant) (old : string) (u : Update) (w : World) :
  handle (put_contacts_write v old u) update_catch w =
    let w1 := log (contacts_coll, UpdateOne) w in
    if online w then
      match split_first (matches (by_phone_number old)) (contacts w) with
      | None => (json 404 (Error "Contact not found"), w1)
      | Some (pre, c, post) =>
          if match upd_phone_number u with
             | Some p => phone_taken p (pre ++ post)
             | None => false
             end
          then (json 409 (Error "Phone number already registered"), w1)
          else
            let w2 := with_contacts (pre ++ apply_set u c :: post) w1 in
            (json 200 (ContactUpdated "Contact updated successfully"
               (List.find
                  (matches (by_phone_number (Js.or_else (upd_phone_number u) old)))
                  (contacts w2))),
             log (contacts_coll, FindOne) w2)
      end
    else (json 500 (Error "Failed to update contact"), w1).
Proof.
  unfold handle, put_contacts_write, bind.
  rewrite contacts_updateOne_run. cbv zeta.
  destruct (online w) eqn:Hon; [|reflexivity].
  destruct (split_first _ _) as [[[pre c] post]|]; [|reflexivity].
  destruct (match upd_phone_number u with Some _ => _ | None => _ end);
    [reflexivity|].
  cbn [Nat.eqb]. rewrite contacts_findOne_run.
  cbn [online with_contacts log]. rewrite Hon. reflexivity.
Qed.

Lemma put_contacts_run (v : Variant)
    (old_phone_number new_name new_phone_number : option string) (w : World) :
  put_contacts v old_phone_number new_name new_phone_number w =
    if negb (Js.truthy old_phone_number)
       || (negb (Js.truthy new_name) && negb (Js.truthy new_phone_number)) then
      (json 400 (Error
         "Required data missing contact dev Nutterx +254713881613 to update for you."),
       w)
    else if Js.truthy new_phone_number
            && length_out_of_range (cleanedPhone (Js.str new_phone_number)) then
      (json 400 (Error "Invalid phone number"), w)
    else
      handle (put_contacts_write v (Js.str old_phone_number)
                (update_of new_name new_phone_number))
             update_catch w.
Proof.
  unfold put_contacts, handle, update_of. cbv zeta.
  destruct (negb (Js.truthy old_phone_number) || _); [reflexivity|].
  destruct (Js.truthy new_phone_number); cbn [andb];
    [destruct (length_out_of_range _); [reflexivity|]|];
    destruct (Js.truthy new_name); reflexivity.
Qed.

(** The contacts after [PUT /api/contacts]: as before, or with [$set] applied
    to the first contact that matches. *)
Lemma put_contacts_contacts (v : Variant)
    (old_phone_number new_name new_phone_number : option string) (w : World) :
  let after := contacts (snd (put_contacts v old_phone_number new_name new_phone_number w)) in
  after = contacts w
  \/ exists pre c post,
       split_first (matches (by_phone_number (Js.str old_phone_number))) (contacts w)
         = Some (pre, c, post)
       /\ after = (pre ++ apply_set (update_of new_name new_phone_number) c :: post)%list.
Proof.
  cbv zeta. rewrite put_contacts_run.
  destruct (negb (Js.truthy old_phone_number) || _); [now left|].
  destruct (Js.truthy new_phone_number && _); [now left|].
  rewrite put_contacts_write_run. cbv zeta.
  destruct (online w); [|now left].
  destruct (split_first _ _) as [[[pre c] post]|]; [|now left].
  destruct (match upd_phone_number _ with Some _ => _ | None => _ end); [now left|].
  right. exists pre, c, post. split; reflexivity.
Qed.

Lemma map_apply_set {B : Type} (g : Contact.t -> B) (u : Update)
    (pre post : list Contact.t) (c : Contact.t) :
  g (apply_set u c) = g c ->
  map g (pre ++ apply_set u c :: post) = map g (pre ++ c :: post).
Proof.
  intros H. rewrite !map_app. simpl. now rewrite H.
Qed.

(** C7. SelfUpdate applies only the fields it is given.  Called with the old
    phone number and only new_name, it leaves the phone_number, link,
    created_at (and _id) of every contact as they were, and the matched
    contact gets the new name.  Called with only new_phone_number, the value
    is normalised and range-checked first: out of range, the answer is 400
    InvalidPhone and the store has not been touched; in range, the matched
    contact gets the normalised number and keeps its other fields. *)
Theorem self_update_applies_provided_fields (v : Variant) (old : string)
    (new_name new_phone_number : option string) (w : World) :
  Js.truthy (Some old) = true ->
  let answer := put_contacts v (Some old) new_name new_phone_number w in
  let cleaned := cleanedPhone (Js.str new_phone_number) in
  (Js.truthy new_name = true -> Js.truthy new_phone_number = false ->
     map Contact.phone_number (contacts (snd answer)) = map Contact.phone_number (contacts w)
     /\ map Contact.link (contacts (snd answer)) = map Contact.link (contacts w)
     /\ map Contact.created_at (contacts (snd answer)) = map Contact.created_at (contacts w)
     /\ map Contact._id (contacts (snd answer)) = map Contact._id (contacts w)
     /\ forall pre c post,
          online w = true ->
          split_first (matches (by_phone_number old)) (contacts w) = Some (pre, c, post) ->
          status (fst answer) = 200%nat
          /\ contacts (snd answer) =
               (pre ++ Contact.mk (Contact._id c) (Js.str new_name)
                         (Contact.phone_number c) (Contact.link c)
                         (Contact.created_at c) :: post)%list)
  /\ (Js.truthy new_name = false -> Js.truthy new_phone_number = true ->
       (length_out_of_range cleaned = true ->
          answer = (mkResponse 400 (Error "Invalid phone number"), w))
       /\ (length_out_of_range cleaned = false ->
            forall pre c post,
              online w = true ->
              split_first (matches (by_phone_number old)) (contacts w) = Some (pre, c, post) ->
              phone_taken cleaned (pre ++ post) = false ->
              status (fst answer) = 200%nat
              /\ contacts (snd answer) =
                   (pre ++ Contact.mk (Contact._id c) (Contact.name c) cleaned
                             (Contact.link c) (Contact.created_at c) :: post)%list)).
Proof.
  intros Hold answer cleaned. split.
  - intros Hname Hphone.
    assert (Hu : update_of new_name new_phone_number = mkUpdate new_name None).
    { unfold update_of. now rewrite Hname, Hphone. }
    assert (Hframe : forall (B : Type) (g : Contact.t -> B),
               (forall c, g (apply_set (mkUpdate new_name None) c) = g c) ->
               map g (contacts (snd answer)) = map g (contacts w)).
    { intros B g Hg.
      destruct (put_contacts_contacts v (Some old) new_name new_phone_number w)
        as [E | (pre & c & post & Hsplit & E)]; cbv zeta in E; fold answer in E;
        rewrite E; [reflexivity|].
      apply split_first_Some in Hsplit. destruct Hsplit as [-> _].
      rewrite Hu. now apply map_apply_set. }
    do 4 (split; [apply Hframe; intros c; reflexivity|]).
    intros pre c post Hon Hsplit. subst answer.
    rewrite put_contacts_run, Hold, Hname, Hphone.
    cbn [negb orb andb]. rewrite put_contacts_write_run, Hu. cbv zeta.
    rewrite Hon. cbn [Js.str] in *. rewrite Hsplit.
    split; [reflexivity|]. cbn.
    destruct new_name as [n|]; [reflexivity | discriminate Hname].
  - intros Hname Hphone.
    assert (Hu : update_of new_name new_phone_number = mkUpdate None (Some cleaned)).
    { unfold update_of. now rewrite Hname, Hphone. }
    split.
    + intros Hbad. subst answer. rewrite put_contacts_run, Hold, Hname, Hphone.
      cbn [negb orb andb]. fold cleaned. now rewrite Hbad.
    + intros Hgood pre c post Hon Hsplit Hfree. subst answer.
      rewrite put_contacts_run, Hold, Hname, Hphone.
      cbn [negb orb andb]. fold cleaned. rewrite Hgood.
      rewrite put_contacts_write_run, Hu. cbv zeta.
      rewrite Hon. cbn [Js.str] in *. rewrite Hsplit. cbn [upd_phone_number].
      rewrite Hfree. split; reflexivity.
Qed.

Lemma self_update_applies_provided_fields_witness :
  map Contact.phone_number
    (contacts (snd (put_contacts vip_variant (Some "254712000111") (Some "Amelia")
                      None two_contacts)))
  = ["254712000111"; "15550001234"].
Proof.
  exact (proj1 (proj1 (self_update_applies_provided_fields vip_variant
                         "254712000111" (Some "Amelia") None two_contacts eq_refl)
                  eq_refl eq_refl)).
Defined.

(** ** The latest broadcast *)

Lemma In_insert_by {A : Type} (before : A -> A -> bool) (x y : A) (l : list A) :
  In y (insert_by before x l) <-> y = x \/ In y l.
Proof.
  induction l as [|z l IH]; simpl.
  - intuition.
  - destruct (before x z); simpl; rewrite ?IH; intuition.
Qed.

Lemma In_sort_by {A : Type} (before : A -> A -> bool) (y : A) (l : list A) :
  In y (sort_by before l) <-> In y l.
Proof.
  unfold sort_by. induction l as [|x l IH]; simpl; [reflexivity|].
  rewrite In_insert_by, IH. intuition.
Qed.

(** The head of a descending sort is an element with the greatest key. *)
Lemma sort_desc_head {A : Type} (key : A -> Z) (l : list A) (h : A) (t : list A) :
  sort_desc key l = h :: t ->
  In h l /\ forall x, In x l -> (key x <= key h)%Z.
Proof.
  unfold sort_desc, sort_by. revert h t.
  induction l as [|y l IH]; intros h t H; simpl in H; [discriminate|].
  destruct (fold_right _ [] l) as [|h' t'] eqn:E.
  - simpl in H. inversion H; subst.
    assert (Hnil : forall x, ~ In x l).
    { intros x Hx. apply (In_sort_by (fun a b => (key b <=? key a)%Z)) in Hx.
      unfold sort_by in Hx. rewrite E in Hx. exact Hx. }
    split; [now left|]. intros x [<- | Hx]; [lia | now apply Hnil in Hx].
  - destruct (IH h' t' eq_refl) as [Hin Hmax]. simpl in H.
    destruct (key h' <=? key y)%Z eqn:Hle; inversion H; subst.
    + apply Z.leb_le in Hle. split; [now left|].
      intros x [<- | Hx]; [lia | specialize (Hmax x Hx); lia].
    + apply Z.leb_gt in Hle. split; [now right|].
      intros x [<- | Hx]; [lia | now apply Hmax].
Qed.

Lemma sort_by_nil {A : Type} (before : A -> A -> bool) (l : list A) :
  sort_by before l = [] -> l = [].
Proof.
  intros H. destruct l as [|x l]; [reflexivity|].
  assert (Hx : In x (sort_by before (x :: l))) by (apply In_sort_by; now left).
  rewrite H in Hx. destruct Hx.
Qed.

Lemma broadcasts_find_run (v : Variant) (cursor : list Broadcast.t -> list Broadcast.t)
    (w : World) :
  broadcastCollection.find v cursor w =
    (if online w then Normal (cursor (broadcasts w)) else Throw MongoNetworkError,
     log (broadcasts_coll, Find) w).
Proof.
  unfold broadcastCollection.find, bind, call.
  rewrite variable_broadcastCollection. cbn [log online broadcasts].
  now destruct (online w).
Qed.

(** C8. The latest-broadcast route never fails on account of an empty log: when
    the store answers, an empty log gives 200 with an explicit null, and a
    non-empty log gives 200 with a stored message whose created_at is the
    greatest of the log. *)
Theorem latest_broadcast_spec (v : Variant) (w : World) :
  online w = true ->
  let answer := fst (get_broadcast_latest v w) in
  (broadcasts w = [] -> status answer = 200%nat /\ body answer = Latest None)
  /\ (broadcasts w <> [] ->
       exists post,
         status answer = 200%nat
         /\ body answer = Latest (Some post)
         /\ In post (broadcasts w)
         /\ forall other, In other (broadcasts w) ->
              (Broadcast.created_at other <= Broadcast.created_at post)%Z).
Proof.
  intros Hon answer. subst answer.
  unfold get_broadcast_latest, handle, bind.
  rewrite broadcasts_find_run, Hon. unfold ret, limit. cbn [fst].
  split.
  - intros ->. split; reflexivity.
  - intros Hne.
    destruct (sort_desc Broadcast.created_at (broadcasts w)) as [|h t] eqn:E.
    + apply sort_by_nil in E. contradiction.
    + exists h. split; [reflexivity|]. split; [reflexivity|].
      now apply sort_desc_head with (t := t).
Qed.

Lemma latest_broadcast_spec_witness :
  (status (fst (get_broadcast_latest base_variant empty_store)) = 200%nat
   /\ body (fst (get_broadcast_latest base_variant empty_store)) = Latest None)
  /\ exists post,
       status (fst (get_broadcast_latest base_variant three_broadcasts)) = 200%nat
       /\ body (fst (get_broadcast_latest base_variant three_broadcasts))
          = Latest (Some post)
       /\ In post (broadcasts three_broadcasts)
       /\ forall other, In other (broadcasts three_broadcasts) ->
            (Broadcast.created_at other <= Broadcast.created_at post)%Z.
Proof.
  split.
  - exact (proj1 (latest_broadcast_spec base_variant empty_store eq_refl) eq_refl).
  - apply (proj2 (latest_broadcast_spec base_variant three_broadcasts eq_refl)).
    discriminate.
Defined.

Example latest_of_three :
  status (fst (get_broadcast_latest base_variant three_broadcasts)) = 200%nat
  /\ body (fst (get_broadcast_latest base_variant three_broadcasts))
     = Latest (Some (Broadcast.mk 2%N "newest" 300)).
Proof. split; reflexivity. Qed.

(** ** Malformed record identities *)

Lemma new_ObjectId_malformed (id : string) (w : World) :
  ObjectId_of_string id = None -> new_ObjectId id w = (Throw BSONError, w).
Proof. intros H. unfold new_ObjectId. now rewrite H. Qed.

Lemma delete_admin_contacts_malformed (v : Variant) (id : string) (w : World) :
  ObjectId_of_string id = None ->
  delete_admin_contacts v id w = (json 500 (Error "Failed to delete contact"), w).
Proof.
  intros H. unfold delete_admin_contacts, handle, bind.
  now rewrite new_ObjectId_malformed.
Qed.

Lemma put_admin_contacts_malformed (v : Variant) (id : string)
    (name phone_number : option string) (w : World) :
  ObjectId_of_string id = None ->
  put_admin_contacts v id name phone_number w =
    (if negb (Js.truthy name) && negb (Js.truthy phone_number) then
       json 400 (Error "Nothing to update")
     else if Js.truthy phone_number
             && length_out_of_range (cleanedPhone (Js.str phone_number)) then
       json 400 (Error "Invalid phone number")
     else json 500 (Error "Failed to update contact"),
     w).
Proof.
  intros H. unfold put_admin_contacts, handle, put_admin_contacts_write, bind.
  cbv zeta.
  destruct (negb (Js.truthy name) && negb (Js.truthy phone_number)); [reflexivity|].
  destruct (Js.truthy phone_number); cbn [andb];
    [destruct (length_out_of_range _); [reflexivity|]|];
    now rewrite new_ObjectId_malformed.
Qed.

(** C9, as stated, fails on the update route: with a malformed id and a body
    that sets nothing, the answer is 400 NothingToUpdate, not 500; the
    ObjectId constructor is never reached.  The same holds behind the admin
    gate with the right key. *)
Lemma malformed_id_update_answers_400 :
  ObjectId_of_string "not-an-object-id" = None
  /\ put_admin_contacts vip_variant "not-an-object-id" None None two_contacts
     = (mkResponse 400 (Error "Nothing to update"), two_contacts)
  /\ app vip_variant "s3cret" 5
       (mkRequest (Some "s3cret") (PUT_admin_contacts "not-an-object-id" None (Some "12345")))
       two_contacts
     = (mkResponse 400 (Error "Invalid phone number"), two_contacts).
Proof. repeat split. Qed.

(** C9, amended.  With an id that is not a well-formed ObjectId string, the
    delete handler answers the generic 500 (not 404) and the update handler
    does so whenever the body passes its NothingToUpdate and InvalidPhone
    checks, which come first and answer 400; in every case no store operation
    is attempted and the store is as it was. *)
Theorem malformed_id_spec (v : Variant) (id : string) (w : World) :
  ObjectId_of_string id = None ->
  delete_admin_contacts v id w = (mkResponse 500 (Error "Failed to delete contact"), w)
  /\ forall name phone_number : option string,
       let nothing_to_update := negb (Js.truthy name) && negb (Js.truthy phone_number) in
       let invalid_phone :=
         Js.truthy phone_number
         && length_out_of_range (cleanedPhone (Js.str phone_number)) in
       snd (put_admin_contacts v id name phone_number w) = w
       /\ (nothing_to_update = false -> invalid_phone = false ->
            fst (put_admin_contacts v id name phone_number w)
              = mkResponse 500 (Error "Failed to update contact"))
       /\ (nothing_to_update = true ->
            fst (put_admin_contacts v id name phone_number w)
              = mkResponse 400 (Error "Nothing to update"))
       /\ (nothing_to_update = false -> invalid_phone = true ->
            fst (put_admin_contacts v id name phone_number w)
              = mkResponse 400 (Error "Invalid phone number")).
Proof.
  intros H. split; [now apply delete_admin_contacts_malformed|].
  intros name phone_number. cbv zeta.
  rewrite put_admin_contacts_malformed by exact H. cbn [fst snd].
  split; [reflexivity|].
  repeat split; intros; repeat match goal with E : _ = _ |- _ => rewrite E end;
    reflexivity.
Qed.

Lemma malformed_id_spec_witness :
  delete_admin_contacts base_variant "12345" two_contacts
  = (mkResponse 500 (Error "Failed to delete contact"), two_contacts).
Proof.
  exact (proj1 (malformed_id_spec base_variant "12345" two_contacts eq_refl)).
Defined.

(** ** Stored phone numbers are canonical *)

Section Preservation.

Variable P : World -> Prop.
Hypothesis P_log : forall op w, P w -> P (log op w).

Lemma preserves_ret {A : Type} (a : A) : preserves P (ret a).
Proof. intros w H. exact H. Qed.

Lemma preserves_throw {A : Type} (err : JsError) : preserves P (@throw A err).
Proof. intros w H. exact H. Qed.

Lemma preserves_bind {A B : Type} (m : Async A) (k : A -> Async B) :
  preserves P m -> (forall a, preserves P (k a)) -> preserves P (bind m k).
Proof.
  intros Hm Hk w H. unfold bind. specialize (Hm w H).
  destruct (m w) as [[a | err] w']; simpl in *; [now apply Hk | exact Hm].
Qed.

Lemma preserves_variable (v : Variant) (ident : string) : preserves P (variable v ident).
Proof.
  unfold variable. destruct (Js.includes _ _);
    [apply preserves_ret | apply preserves_throw].
Qed.

Lemma preserves_call {A : Type} (coll : Collection) (m : Method)
    (run : World -> Completion A * World) :
  (forall w, P w -> P (snd (run w))) -> preserves P (call coll m run).
Proof.
  intros Hrun w H. unfold call. cbv zeta.
  destruct (online (log (coll, m) w)); [apply Hrun|]; now apply P_log.
Qed.

Lemma preserves_new_ObjectId (id : string) : preserves P (new_ObjectId id).
Proof.
  unfold new_ObjectId. destruct (ObjectId_of_string id);
    [apply preserves_ret | apply preserves_throw].
Qed.

Lemma preserves_handle (body : Async Response) (catch : JsError -> Response) :
  preserves P body -> forall w, P w -> P (snd (handle body catch w)).
Proof.
  intros Hb w H. unfold handle. specialize (Hb w H).
  now destruct (body w) as [[r | err] w'].
Qed.

End Preservation.

Lemma canonical_log (op : StoreOp) (w : World) :
  canonical_store w -> canonical_store (log op w).
Proof. intros H. exact H. Qed.

Lemma canonical_apply_set (u : Update) (c : Contact.t) :
  (forall p, upd_phone_number u = Some p -> all_digits p) ->
  all_digits (Contact.phone_number c) ->
  all_digits (Contact.phone_number (apply_set u c)).
Proof.
  intros Hu Hc. unfold apply_set. simpl.
  destruct (upd_phone_number u) as [p|]; [now apply Hu | exact Hc].
Qed.

Section CanonicalMethods.

Variable v : Variant.

Lemma canonical_insertOne (name phone url : string) (now : Z) :
  all_digits phone ->
  preserves canonical_store (contactsCollection.insertOne v name phone url now).
Proof.
  intros Hp. unfold contactsCollection.insertOne.
  apply preserves_bind; [apply preserves_variable | intros _].
  apply preserves_call; [exact canonical_log|]. intros w H.
  destruct (phone_taken phone (contacts w)); [exact H|].
  unfold canonical_store in *. simpl. apply Forall_app. split; [exact H|].
  constructor; [exact Hp | constructor].
Qed.

Lemma canonical_updateOne (f : ContactFilter) (u : Update) :
  (forall p, upd_phone_number u = Some p -> all_digits p) ->
  preserves canonical_store (contactsCollection.updateOne v f u).
Proof.
  intros Hu. unfold contactsCollection.updateOne.
  apply preserves_bind; [apply preserves_variable | intros _].
  apply preserves_call; [exact canonical_log|]. intros w H.
  destruct (split_first (matches f) (contacts w)) as [[[pre c] post]|] eqn:E;
    [|exact H].
  apply split_first_Some in E. destruct E as [E _].
  assert (Hnew : canonical_store (with_contacts (pre ++ apply_set u c :: post) w)).
  { unfold canonical_store in *. simpl. rewrite E in H.
    apply Forall_app in H. destruct H as [Hpre Hrest].
    inversion Hrest as [|? ? Hc Hpost]; subst.
    apply Forall_app. split; [exact Hpre|].
    constructor; [now apply canonical_apply_set | exact Hpost]. }
  destruct (upd_phone_number u) as [p|]; [|exact Hnew].
  destruct (phone_taken p (pre ++ post)); [exact H | exact Hnew].
Qed.

Lemma canonical_deleteOne (f : ContactFilter) :
  preserves canonical_store (contactsCollection.deleteOne v f).
Proof.
  unfold contactsCollection.deleteOne.
  apply preserves_bind; [apply preserves_variable | intros _].
  apply preserves_call; [exact canonical_log|]. intros w H.
  destruct (split_first (matches f) (contacts w)) as [[[pre c] post]|] eqn:E;
    [|exact H].
  apply split_first_Some in E. destruct E as [E _].
  unfold canonical_store in *. simpl. rewrite E in H.
  apply Forall_app in H. destruct H as [Hpre Hrest].
  inversion Hrest; subst. apply Forall_app. now split.
Qed.

End CanonicalMethods.

Lemma canonical_same_contacts {A : Type} (coll : Collection) (m : Method)
    (run : World -> Completion A * World) :
  (forall w, contacts (snd (run w)) = contacts w) ->
  preserves canonical_store (call coll m run).
Proof.
  intros Hrun. apply preserves_call; [exact canonical_log|].
  intros w H. unfold canonical_store in *. now rewrite Hrun.
Qed.

Ltac preserve_step :=
  lazymatch goal with
  | |- preserves _ (let _ := _ in _) => cbv zeta
  | |- preserves _ (ret _) => apply preserves_ret
  | |- preserves _ (throw _) => apply preserves_throw
  | |- preserves _ (variable _ _) => apply preserves_variable
  | |- preserves _ (new_ObjectId _) => apply preserves_new_ObjectId
  | |- preserves _ (optional_includes _ _) => unfold optional_includes
  | |- preserves _ (bind _ _) => apply preserves_bind; [| intros ?]
  | |- preserves _ (call _ _ _) =>
      apply canonical_same_contacts; intros ?; reflexivity
  | |- preserves _ (contactsCollection.insertOne _ _ _ _ _) =>
      apply canonical_insertOne; apply cleanedPhone_all_digits
  | |- preserves _ (contactsCollection.deleteOne _ _) => apply canonical_deleteOne
  | |- preserves _ (contactsCollection.countDocuments _) =>
      unfold contactsCollection.countDocuments
  | |- preserves _ (contactsCollection.find _ _) => unfold contactsCollection.find
  | |- preserves _ (contactsCollection.findOne _ _) => unfold contactsCollection.findOne
  | |- preserves _ (broadcastCollection.insertOne _ _ _) =>
      unfold broadcastCollection.insertOne
  | |- preserves _ (broadcastCollection.find _ _) => unfold broadcastCollection.find
  | |- preserves _ (vipPhotosCollection.insertOne _ _ _ _ _) =>
      unfold vipPhotosCollection.insertOne
  | |- preserves _ (vipPhotosCollection.find _ _) => unfold vipPhotosCollection.find
  | |- preserves _ (if ?b then _ else _) => destruct b
  | |- preserves _ (match ?x with _ => _ end) => destruct x
  end.

Ltac preserve := repeat preserve_step.

Lemma keeps_handle (body : Async Response) (catch : JsError -> Response) :
  preserves canonical_store body -> keeps_canonical (handle body catch).
Proof. intros Hb w H. now apply preserves_handle. Qed.

Lemma keeps_adminAuth (ADMIN_KEY : string) (key : option string) (next : Handler) :
  keeps_canonical next -> keeps_canonical (adminAuth ADMIN_KEY key next).
Proof.
  intros Hn w H. unfold adminAuth.
  destruct (negb (Js.truthy key) || Js.strict_neq key ADMIN_KEY);
    [exact H | now apply Hn].
Qed.

Section CanonicalHandlers.

Variable v : Variant.

Lemma canonical_get_contacts_count : keeps_canonical (get_contacts_count v).
Proof.
  apply keeps_handle. preserve.
Qed.

Lemma canonical_get_contacts : keeps_canonical (get_contacts v).
Proof. apply keeps_handle. preserve. Qed.

Lemma canonical_get_contacts_download : keeps_canonical (get_contacts_download v).
Proof. apply keeps_handle. preserve. Qed.

Lemma canonical_get_admin_contacts : keeps_canonical (get_admin_contacts v).
Proof. apply keeps_handle. preserve. Qed.

Lemma canonical_post_contacts (now : Z) (name phone_number : option string) :
  keeps_canonical (post_contacts v now name phone_number).
Proof. apply keeps_handle. preserve. Qed.

Lemma canonical_put_contacts_write (old : string) (u : Update) :
  (forall p, upd_phone_number u = Some p -> all_digits p) ->
  preserves canonical_store (put_contacts_write v old u).
Proof.
  intros Hu. unfold put_contacts_write.
  apply preserves_bind; [now apply canonical_updateOne | intros n].
  preserve.
Qed.

Lemma canonical_put_contacts (old new_name new_phone_number : option string) :
  keeps_canonical (put_contacts v old new_name new_phone_number).
Proof.
  apply keeps_handle. cbv zeta.
  destruct (Js.truthy new_name); preserve; apply canonical_put_contacts_write;
    cbn [upd_phone_number]; intros p [=]; subst; apply cleanedPhone_all_digits.
Qed.

Lemma canonical_put_admin_contacts_write (id : string) (u : Update) :
  (forall p, upd_phone_number u = Some p -> all_digits p) ->
  preserves canonical_store (put_admin_contacts_write v id u).
Proof.
  intros Hu. unfold put_admin_contacts_write.
  apply preserves_bind; [apply preserves_new_ObjectId | intros oid].
  apply preserves_bind; [now apply canonical_updateOne | intros n].
  preserve.
Qed.

Lemma canonical_put_admin_contacts (id : string) (name phone_number : option string) :
  keeps_canonical (put_admin_contacts v id name phone_number).
Proof.
  apply keeps_handle. cbv zeta.
  destruct (Js.truthy name); preserve; apply canonical_put_admin_contacts_write;
    cbn [upd_phone_number]; intros p [=]; subst; apply cleanedPhone_all_digits.
Qed.

Lemma canonical_delete_admin_contacts (id : string) :
  keeps_canonical (delete_admin_contacts v id).
Proof. apply keeps_handle. preserve. Qed.

Lemma canonical_post_admin_broadcast (now : Z) (message : option string) :
  keeps_canonical (post_admin_broadcast v now message).
Proof.
  apply keeps_handle. preserve.
Qed.

Lemma canonical_get_broadcast_latest : keeps_canonical (get_broadcast_latest v).
Proof. apply keeps_handle. preserve. Qed.

Lemma canonical_post_admin_vip_send_media (now : Z) (files : list File)
    (caption type : option string) :
  keeps_canonical (post_admin_vip_send_media v now files caption type).
Proof.
  apply keeps_handle. preserve.
Qed.

Lemma canonical_get_vip_photos : keeps_canonical (get_vip_photos v).
Proof. apply keeps_handle. preserve. Qed.

End CanonicalHandlers.

Lemma canonical_unchanged (r : Response) : keeps_canonical (fun w => (r, w)).
Proof. intros w H. exact H. Qed.

(** Every request leaves the stored phone numbers canonical: the three
    handlers that write a phone number write a normalised one. *)
Lemma app_keeps_canonical (v : Variant) (ADMIN_KEY : string) (now : Z) (req : Request) :
  keeps_canonical (app v ADMIN_KEY now req).
Proof.
  unfold app. destruct (route req).
  - apply canonical_unchanged.
  - apply canonical_get_contacts_count.
  - apply canonical_get_contacts.
  - apply canonical_get_contacts_download.
  - apply canonical_post_contacts.
  - apply canonical_put_contacts.
  - intros w H. unfold post_admin_login.
    destruct (negb (Js.truthy key)); [exact H|].
    destruct (Js.strict_neq key ADMIN_KEY); exact H.
  - apply keeps_adminAuth, canonical_post_admin_broadcast.
  - apply keeps_adminAuth, canonical_get_admin_contacts.
  - apply keeps_adminAuth, canonical_put_admin_contacts.
  - apply keeps_adminAuth, canonical_delete_admin_contacts.
  - destruct v; [|apply canonical_unchanged].
    apply keeps_adminAuth, canonical_post_admin_vip_send_media.
  - destruct v; [|apply canonical_unchanged]. apply canonical_get_vip_photos.
  - apply canonical_get_broadcast_latest.
Qed.

(** ** Matching on the old phone number *)

Lemma canonical_no_verbatim_match (w : World) (old : string) :
  canonical_store w -> ~ all_digits old ->
  split_first (matches (by_phone_number old)) (contacts w) = None.
Proof.
  intros Hw Hold. apply split_first_None.
  unfold canonical_store in Hw. apply Forall_forall. intros c Hc.
  rewrite Forall_forall in Hw. specialize (Hw c Hc). simpl.
  destruct (String.eqb_spec (Contact.phone_number c) old) as [E|]; [|reflexivity].
  rewrite E in Hw. contradiction.
Qed.

Lemma plus_prefixed_is_not_canonical : ~ all_digits "+254712000111".
Proof.
  unfold all_digits. intros H. inversion H as [|? ? Hplus _]. discriminate Hplus.
Qed.

Lemma two_contacts_canonical : canonical_store two_contacts.
Proof.
  unfold canonical_store, two_contacts, all_digits. simpl.
  repeat constructor.
Qed.

(** C10, as stated, fails: an old phone number with a non-digit together with
    a new phone number that is out of range is answered 400 InvalidPhone, and
    with no field to set 400 MissingField, not 404 NotFound. *)
Lemma non_digit_old_phone_answers_400 :
  canonical_store two_contacts
  /\ ~ all_digits "+254712000111"
  /\ put_contacts vip_variant (Some "+254712000111") None (Some "12345") two_contacts
     = (mkResponse 400 (Error "Invalid phone number"), two_contacts)
  /\ status (fst (put_contacts vip_variant (Some "+254712000111") None None
                    two_contacts)) = 400%nat.
Proof.
  split; [exact two_contacts_canonical|].
  split; [exact plus_prefixed_is_not_canonical|].
  split; reflexivity.
Qed.

(** C10, amended.  SelfUpdate looks the contact up by old_phone_number as
    supplied, without normalising it.  When every stored phone number is a
    digits-only string and old_phone_number contains a non-digit, no contact
    matches: the contacts are left as they were, and a request that passes the
    MissingField and InvalidPhone checks is answered 404 NotFound when the
    store answers; a request that fails one of those checks is answered 400
    first, with the store untouched. *)
Theorem self_update_matches_old_phone_verbatim (v : Variant) (old : string)
    (new_name new_phone_number : option string) (w : World) :
  canonical_store w -> ~ all_digits old ->
  let answer := put_contacts v (Some old) new_name new_phone_number w in
  let missing_field := negb (Js.truthy new_name) && negb (Js.truthy new_phone_number) in
  let invalid_phone :=
    Js.truthy new_phone_number
    && length_out_of_range (cleanedPhone (Js.str new_phone_number)) in
  contacts (snd answer) = contacts w
  /\ (missing_field = false -> invalid_phone = false -> online w = true ->
       answer = (mkResponse 404 (Error "Contact not found"),
                 log (contacts_coll, UpdateOne) w))
  /\ (missing_field = true -> status (fst answer) = 400%nat /\ snd answer = w)
  /\ (missing_field = false -> invalid_phone = true ->
       answer = (mkResponse 400 (Error "Invalid phone number"), w)).
Proof.
  intros Hw Hold answer missing_field invalid_phone.
  assert (Htruthy : Js.truthy (Some old) = true).
  { apply truthy_Some. intros ->. apply Hold. constructor. }
  pose proof (canonical_no_verbatim_match w old Hw Hold) as Hnone.
  subst answer. rewrite put_contacts_run, Htruthy. cbn [negb orb].
  fold missing_field. fold invalid_phone.
  destruct missing_field, invalid_phone; cbn [fst snd];
    repeat split; intros; try discriminate; try reflexivity.
  - rewrite put_contacts_write_run. cbv zeta. cbn [Js.str].
    rewrite Hnone. now destruct (online w).
  - rewrite put_contacts_write_run. cbv zeta. cbn [Js.str].
    rewrite Hnone. match goal with H : online w = true |- _ => rewrite H end.
    reflexivity.
Qed.

Lemma self_update_matches_old_phone_verbatim_witness :
  put_contacts vip_variant (Some "+254712000111") (Some "Amelia") None two_contacts
  = (mkResponse 404 (Error "Contact not found"), log (contacts_coll, UpdateOne) two_contacts).
Proof.
  exact (proj1 (proj2 (self_update_matches_old_phone_verbatim vip_variant
                         "+254712000111" (Some "Amelia") None two_contacts
                         two_contacts_canonical plus_prefixed_is_not_canonical))
           eq_refl eq_refl eq_refl).
Defined.

(** The same request with the canonical form of the number does match. *)
Example canonical_old_phone_matches :
  cleanedPhone "+254712000111" = "254712000111"
  /\ status (fst (put_contacts vip_variant (Some "254712000111") (Some "Amelia") None
                    two_contacts)) = 200%nat.
Proof. split; reflexivity. Qed.

(** * Further properties *)

(** ** Every route, step by step *)

Lemma contacts_countDocuments_run (v : Variant) (w : World) :
  contactsCollection.countDocuments v w =
    (if online w then Normal (length (contacts w)) else Throw MongoNetworkError,
     log (contacts_coll, CountDocuments) w).
Proof.
  unfold contactsCollection.countDocuments, bind, call.
  rewrite variable_contactsCollection. cbn [log online contacts].
  now destruct (online w).
Qed.

Lemma get_contacts_count_run (v : Variant) (w : World) :
  get_contacts_count v w =
    (if online w then json 200 (Count (length (contacts w)))
     else json 500 (Error "Failed to fetch count"),
     log (contacts_coll, CountDocuments) w).
Proof.
  unfold get_contacts_count, handle, bind. rewrite contacts_countDocuments_run.
  now destruct (online w).
Qed.

Lemma get_contacts_run (v : Variant) (w : World) :
  get_contacts v w =
    (if online w
     then json 200 (Contacts (limit 250 (sort_asc Contact.created_at (contacts w))))
     else json 500 (Error "Failed to fetch contacts"),
     log (contacts_coll, Find) w).
Proof.
  unfold get_contacts, handle, bind. rewrite contacts_find_run.
  now destruct (online w).
Qed.

Lemma get_admin_contacts_run (v : Variant) (w : World) :
  get_admin_contacts v w =
    (if online w
     then json 200 (Contacts (sort_asc Contact.created_at (contacts w)))
     else json 500 (Error "Failed to fetch contacts"),
     log (contacts_coll, Find) w).
Proof.
  unfold get_admin_contacts, handle, bind. rewrite contacts_find_run.
  now destruct (online w).
Qed.

Lemma get_contacts_download_offline (v : Variant) (w : World) :
  online w = false ->
  get_contacts_download v w =
    (json 500 (Error "Failed to generate VCF file"), log (contacts_coll, Find) w).
Proof.
  intros Hoff. unfold get_contacts_download, handle, bind.
  now rewrite contacts_find_run, Hoff.
Qed.

Lemma get_broadcast_latest_run (v : Variant) (w : World) :
  get_broadcast_latest v w =
    (if online w
     then json 200 (Latest (hd_error
                      (limit 1 (sort_desc Broadcast.created_at (broadcasts w)))))
     else json 500 (Error "Failed to fetch broadcast"),
     log (broadcasts_coll, Find) w).
Proof.
  unfold get_broadcast_latest, handle, bind. rewrite broadcasts_find_run.
  now destruct (online w).
Qed.

Lemma post_admin_broadcast_run (v : Variant) (now : Z) (message : option string)
    (w : World) :
  post_admin_broadcast v now message w =
    if negb (Js.truthy message) then (json 400 (Error "Message required"), w)
    else
      let w1 := log (broadcasts_coll, InsertOne) w in
      if online w then
        let post := Broadcast.mk (next_oid w) (Js.str message) now in
        (json 200 (Posted post),
         with_next_oid (N.succ (next_oid w))
           (with_broadcasts (broadcasts w ++ [post]) w1))
      else (json 500 (Error "Failed to send broadcast"), w1).
Proof.
  unfold post_admin_broadcast, handle.
  destruct (negb (Js.truthy message)); [reflexivity|].
  unfold bind, broadcastCollection.insertOne, bind, call.
  rewrite variable_broadcastCollection. cbn [log online].
  now destruct (online w).
Qed.

Lemma get_vip_photos_run (w : World) :
  get_vip_photos vip_variant w = (json 500 (Error "Failed to fetch VIP photos"), w).
Proof. reflexivity. Qed.

Lemma delete_admin_contacts_run (v : Variant) (id : string) (w : World) :
  delete_admin_contacts v id w =
    match ObjectId_of_string id with
    | None => (json 500 (Error "Failed to delete contact"), w)
    | Some oid =>
        let w1 := log (contacts_coll, DeleteOne) w in
        if online w then
          match split_first (matches (by_id oid)) (contacts w) with
          | None => (json 404 (Error "Contact not found"), w1)
          | Some (pre, _, post) =>
              (json 200 (Message "Contact deleted successfully"),
               with_contacts (pre ++ post) w1)
          end
        else (json 500 (Error "Failed to delete contact"), w1)
    end.
Proof.
  unfold delete_admin_contacts, handle, bind, new_ObjectId.
  destruct (ObjectId_of_string id) as [oid|]; [|reflexivity].
  unfold ret at 1. rewrite contacts_deleteOne_run. cbv zeta.
  destruct (online w); [|reflexivity].
  now destruct (split_first _ _) as [[[pre c] post]|].
Qed.

(** The write of the admin update under its [catch] clause, for a well-formed
    id. *)
Lemma put_admin_contacts_write_run (v : Variant) (id : string) (oid : ObjectId)
    (u : Update) (w : World) :
  ObjectId_of_string id = Some oid ->
  handle (put_admin_contacts_write v id u) update_catch w =
    let w1 := log (contacts_coll, UpdateOne) w in
    if online w then
      match split_first (matches (by_id oid)) (contacts w) with
      | None => (json 404 (Error "Contact not found"), w1)
      | Some (pre, c, post) =>
          if match upd_phone_number u with
             | Some p => phone_taken p (pre ++ post)
             | None => false
             end
          then (json 409 (Error "Phone number already registered"), w1)
          else
            let w2 := with_contacts (pre ++ apply_set u c :: post) w1 in
            (json 200 (ContactUpdated "Contact updated successfully"
               (List.find (matches (by_id oid)) (contacts w2))),
             log (contacts_coll, FindOne) w2)
      end
    else (json 500 (Error "Failed to update contact"), w1).
Proof.
  intros Hid. unfold handle, put_admin_contacts_write, bind, new_ObjectId.
  rewrite Hid. unfold ret at 1. rewrite contacts_updateOne_run. cbv zeta.
  destruct (online w) eqn:Hon; [|reflexivity].
  destruct (split_first _ _) as [[[pre c] post]|]; [|reflexivity].
  destruct (match upd_phone_number u with Some _ => _ | None => _ end);
    [reflexivity|].
  cbn [Nat.eqb]. unfold ret at 1. rewrite contacts_findOne_run.
  cbn [online with_contacts log]. rewrite Hon. reflexivity.
Qed.

Lemma put_admin_contacts_run (v : Variant) (id : string)
    (name phone_number : option string) (w : World) :
  put_admin_contacts v id name phone_number w =
    if negb (Js.truthy name) && negb (Js.truthy phone_number) then
      (json 400 (Error "Nothing to update"), w)
    else if Js.truthy phone_number
            && length_out_of_range (cleanedPhone (Js.str phone_number)) then
      (json 400 (Error "Invalid phone number"), w)
    else
      handle (put_admin_contacts_write v id (update_of name phone_number))
             update_catch w.
Proof.
  unfold put_admin_contacts, handle, update_of. cbv zeta.
  destruct (negb (Js.truthy name) && _); [reflexivity|].
  destruct (Js.truthy phone_number); cbn [andb];
    [destruct (length_out_of_range _); [reflexivity|]|];
    destruct (Js.truthy name); reflexivity.
Qed.

(** ** What a request can do to the stored data *)

Lemma same_data_refl (w : World) : same_data w w.
Proof. repeat split. Qed.

Lemma same_data_log (op : StoreOp) (w : World) : same_data w (log op w).
Proof. repeat split. Qed.

Lemma get_contacts_download_same_data (v : Variant) (w : World) :
  same_data w (snd (get_contacts_download v w)).
Proof.
  destruct (online w) eqn:Hon.
  - rewrite get_contacts_download_run by exact Hon. apply same_data_log.
  - rewrite get_contacts_download_offline by exact Hon. apply same_data_log.
Qed.

Lemma post_admin_login_same (ADMIN_KEY : string) (key : option string) (w : World) :
  snd (post_admin_login ADMIN_KEY key w) = w.
Proof.
  unfold post_admin_login. destruct (negb (Js.truthy key)); [reflexivity|].
  now destruct (Js.strict_neq key ADMIN_KEY).
Qed.

(** The routes answered by an [app.get] only read. *)
Lemma get_routes_same_data (v : Variant) (ADMIN_KEY : string) (now : Z)
    (req : Request) (w : World) :
  is_get (route req) = true ->
  same_data w (snd (app v ADMIN_KEY now req w)).
Proof.
  intros Hget. unfold app, adminAuth.
  destruct (route req); try discriminate Hget.
  - apply same_data_refl.
  - rewrite get_contacts_count_run. apply same_data_log.
  - rewrite get_contacts_run. apply same_data_log.
  - apply get_contacts_download_same_data.
  - destruct (negb _ || _); [apply same_data_refl|].
    rewrite get_admin_contacts_run. apply same_data_log.
  - destruct v; apply same_data_refl.
  - rewrite get_broadcast_latest_run. apply same_data_log.
Qed.

Lemma update_of_ok (name phone_number : option string) :
  Js.truthy phone_number
    && length_out_of_range (cleanedPhone (Js.str phone_number)) = false ->
  update_ok (update_of name phone_number).
Proof.
  intros H p Hp. unfold update_of in Hp. cbn [upd_phone_number] in Hp.
  destruct (Js.truthy phone_number); [|discriminate Hp].
  cbn [andb] in H. inversion Hp; subst p. split.
  - apply cleanedPhone_all_digits.
  - now apply length_out_of_range_false.
Qed.

Lemma update_of_name (name phone_number : option string) (n : string) :
  upd_name (update_of name phone_number) = Some n -> n <> "".
Proof.
  unfold update_of. cbn [upd_name].
  destruct (Js.truthy name) eqn:Hn; [|discriminate].
  intros ->. now apply truthy_Some.
Qed.

Section ContactsSteps.

Variable v : Variant.
Variable now : Z.

Lemma post_contacts_step (name phone_number : option string) (w : World) :
  contacts_step now (next_oid w) (contacts w)
    (contacts (snd (post_contacts v now name phone_number w))).
Proof.
  rewrite post_contacts_run. cbv zeta.
  destruct (Js.truthy name) eqn:Hname; cbn [negb orb]; [|apply step_none].
  destruct (Js.truthy phone_number); cbn [negb]; [|apply step_none].
  destruct (length_out_of_range _) eqn:Hlen; [apply step_none|].
  destruct (Js.includes blockedNumbers _) eqn:Hblocked; [apply step_none|].
  destruct (online w); [|apply step_none].
  destruct (phone_taken _ _) eqn:Htaken; [apply step_none|].
  cbn [snd contacts with_next_oid with_contacts].
  apply step_insert; try assumption.
  - destruct name as [n|]; [|discriminate Hname]. now apply truthy_Some.
  - split; [apply cleanedPhone_all_digits | now apply length_out_of_range_false].
Qed.

(** The shared shape of the two update handlers once the body is accepted. *)
Lemma update_write_step (f : ContactFilter) (u : Update) (w : World)
    (answer : Response * World) (found : World -> option Contact.t) :
  update_ok u -> (forall n, upd_name u = Some n -> n <> "") ->
  answer =
    (let w1 := log (contacts_coll, UpdateOne) w in
     if online w then
       match split_first (matches f) (contacts w) with
       | None => (json 404 (Error "Contact not found"), w1)
       | Some (pre, c, post) =>
           if match upd_phone_number u with
              | Some p => phone_taken p (pre ++ post)
              | None => false
              end
           then (json 409 (Error "Phone number already registered"), w1)
           else
             let w2 := with_contacts (pre ++ apply_set u c :: post) w1 in
             (json 200 (ContactUpdated "Contact updated successfully" (found w2)),
              log (contacts_coll, FindOne) w2)
       end
     else (json 500 (Error "Failed to update contact"), w1)) ->
  contacts_step now (next_oid w) (contacts w) (contacts (snd answer)).
Proof.
  intros Hu Hn ->. cbv zeta.
  destruct (online w); [|apply step_none].
  destruct (split_first _ _) as [[[pre c] post]|] eqn:Hsplit; [|apply step_none].
  apply split_first_Some in Hsplit. destruct Hsplit as [Hcs _].
  destruct (match upd_phone_number u with Some _ => _ | None => _ end) eqn:Htaken;
    [apply step_none|].
  cbn [snd contacts with_contacts log]. rewrite Hcs.
  apply step_set; [exact Hu | | exact Hn].
  intros p Hp. now rewrite Hp in Htaken.
Qed.

Lemma put_contacts_step (old new_name new_phone_number : option string) (w : World) :
  contacts_step now (next_oid w) (contacts w)
    (contacts (snd (put_contacts v old new_name new_phone_number w))).
Proof.
  rewrite put_contacts_run.
  destruct (negb (Js.truthy old) || _); [apply step_none|].
  destruct (Js.truthy new_phone_number && _) eqn:Hphone; [apply step_none|].
  apply (update_write_step (by_phone_number (Js.str old))
           (update_of new_name new_phone_number) w _
           (fun w2 =>
              List.find
                (matches (by_phone_number
                   (Js.or_else (upd_phone_number (update_of new_name new_phone_number))
                      (Js.str old))))
                (contacts w2)));
    [now apply update_of_ok | apply update_of_name | apply put_contacts_write_run].
Qed.

Lemma put_admin_contacts_step (id : string) (name phone_number : option string)
    (w : World) :
  contacts_step now (next_oid w) (contacts w)
    (contacts (snd (put_admin_contacts v id name phone_number w))).
Proof.
  destruct (ObjectId_of_string id) as [oid|] eqn:Hid.
  - rewrite put_admin_contacts_run.
    destruct (negb (Js.truthy name) && _); [apply step_none|].
    destruct (Js.truthy phone_number && _) eqn:Hphone; [apply step_none|].
    apply (update_write_step (by_id oid) (update_of name phone_number) w _
             (fun w2 => List.find (matches (by_id oid)) (contacts w2)));
      [now apply update_of_ok | apply update_of_name
      | now apply put_admin_contacts_write_run].
  - rewrite put_admin_contacts_malformed by exact Hid. apply step_none.
Qed.

Lemma delete_admin_contacts_step (id : string) (w : World) :
  contacts_step now (next_oid w) (contacts w)
    (contacts (snd (delete_admin_contacts v id w))).
Proof.
  rewrite delete_admin_contacts_run.
  destruct (ObjectId_of_string id) as [oid|]; [|apply step_none]. cbv zeta.
  destruct (online w); [|apply step_none].
  destruct (split_first _ _) as [[[pre c] post]|] eqn:Hsplit; [|apply step_none].
  apply split_first_Some in Hsplit. destruct Hsplit as [Hcs _].
  cbn [snd contacts with_contacts log]. rewrite Hcs. apply step_remove.
Qed.

Lemma post_admin_broadcast_contacts (message : option string) (w : World) :
  contacts (snd (post_admin_broadcast v now message w)) = contacts w.
Proof.
  rewrite post_admin_broadcast_run.
  destruct (negb (Js.truthy message)); [reflexivity|]. cbv zeta.
  now destruct (online w).
Qed.

End ContactsSteps.

Lemma contacts_step_same (now : Z) (fresh : ObjectId) (cs cs' : list Contact.t) :
  cs' = cs -> contacts_step now fresh cs cs'.
Proof. intros ->. apply step_none. Qed.

(** The change a request makes to the contacts, route by route. *)
Lemma app_contacts_step (v : Variant) (ADMIN_KEY : string) (now : Z)
    (req : Request) (w : World) :
  contacts_step now (next_oid w) (contacts w)
    (contacts (snd (app v ADMIN_KEY now req w))).
Proof.
  destruct (is_get (route req)) eqn:Hget.
  - apply contacts_step_same.
    now destruct (get_routes_same_data v ADMIN_KEY now req w Hget) as [-> _].
  - unfold app, adminAuth. destruct (route req); try discriminate Hget.
    + apply post_contacts_step.
    + apply put_contacts_step.
    + apply contacts_step_same. now rewrite post_admin_login_same.
    + destruct (negb _ || _); [apply step_none|].
      apply contacts_step_same, post_admin_broadcast_contacts.
    + destruct (negb _ || _); [apply step_none | apply put_admin_contacts_step].
    + destruct (negb _ || _); [apply step_none | apply delete_admin_contacts_step].
    + destruct v; [|apply step_none].
      destruct (negb _ || _); [apply step_none|]. apply contacts_step_same.
      now destruct (vip_send_media_never_succeeds now files caption type w) as [-> _].
Qed.


(** ** Invariants of the contacts collection *)

Lemma serve_invariant (P : list Contact.t -> Prop) (v : Variant) (ADMIN_KEY : string) :
  (forall now fresh cs cs', contacts_step now fresh cs cs' -> P cs -> P cs') ->
  forall arrivals w, P (contacts w) -> P (contacts (serve v ADMIN_KEY arrivals w)).
Proof.
  intros Hstep arrivals. induction arrivals as [|a rest IH]; intros w H; [exact H|].
  cbn [serve]. apply IH.
  eapply Hstep; [apply app_contacts_step | exact H].
Qed.




Lemma phone_taken_false (p : string) (cs : list Contact.t) :
  phone_taken p cs = false <-> ~ In p (map Contact.phone_number cs).
Proof.
  unfold phone_taken. induction cs as [|c cs IH]; cbn; [tauto|].
  rewrite orb_false_iff, IH.
  destruct (String.eqb_spec (Contact.phone_number c) p); split; intuition congruence.
Qed.

Lemma contacts_step_unique (now : Z) (fresh : ObjectId) (cs cs' : list Contact.t) :
  contacts_step now fresh cs cs' -> phones_unique cs -> phones_unique cs'.
Proof.
  unfold phones_unique.
  intros Hstep H. destruct Hstep as [cs | cs name phone _ _ Hfree _
                                    | pre post c u _ Hfree _ | pre post c].
  - exact H.
  - rewrite map_app. cbn [map Contact.phone_number].
    apply phone_taken_false in Hfree.
    apply (NoDup_Add (a := phone) (l := map Contact.phone_number cs)).
    + rewrite <- (app_nil_r (map Contact.phone_number cs)) at 1. apply Add_app.
    + split; assumption.
  - rewrite map_app in *. cbn [map] in *.
    destruct (upd_phone_number u) as [p|] eqn:Hp.
    + assert (Hphone : Contact.phone_number (apply_set u c) = p).
      { unfold apply_set. cbn. now rewrite Hp. }
      rewrite Hphone. specialize (Hfree p eq_refl).
      apply phone_taken_false in Hfree. rewrite map_app in Hfree.
      apply NoDup_remove_1 in H.
      apply (NoDup_Add (a := p)
               (l := map Contact.phone_number pre ++ map Contact.phone_number post));
        [apply Add_app | split; assumption].
    + assert (Hphone : Contact.phone_number (apply_set u c) = Contact.phone_number c).
      { unfold apply_set. cbn. now rewrite Hp. }
      now rewrite Hphone.
  - rewrite map_app in *. cbn [map] in H. now apply NoDup_remove_1 in H.
Qed.

(** X3. Every request keeps the phone numbers of the contacts pairwise
    distinct: the insert and the two updates go through the unique index, and
    nothing else writes a phone number.  So there is at most one contact per
    phone number after any sequence of requests on an empty store. *)
Theorem phones_stay_unique (v : Variant) (ADMIN_KEY : string) :
  (forall now req w,
     phones_unique (contacts w) ->
     phones_unique (contacts (snd (app v ADMIN_KEY now req w))))
  /\ (forall arrivals,
        phones_unique (contacts (serve v ADMIN_KEY arrivals empty_store))).
Proof.
  split.
  - intros now req w H.
    eapply contacts_step_unique; [apply app_contacts_step | exact H].
  - intros arrivals. apply (serve_invariant phones_unique).
    + exact contacts_step_unique.
    + constructor.
Qed.

(** X4. No request rewrites the identity of a contact: every contact held
    after a request either was held before with the same _id, link and
    created_at, or is the one contact the request created, stamped with the
    current time and the support link. *)
Theorem contact_identity_is_kept (v : Variant) (ADMIN_KEY : string) (now : Z)
    (req : Request) (w : World) (c' : Contact.t) :
  In c' (contacts (snd (app v ADMIN_KEY now req w))) ->
  (exists c, In c (contacts w)
             /\ Contact._id c' = Contact._id c
             /\ Contact.link c' = Contact.link c
             /\ Contact.created_at c' = Contact.created_at c)
  \/ (Contact._id c' = next_oid w /\ Contact.link c' = SUPPORT_LINK
      /\ Contact.created_at c' = now).
Proof.
  intros Hin.
  pose proof (app_contacts_step v ADMIN_KEY now req w) as Hstep.
  destruct Hstep as [cs | cs name phone _ _ _ _ | pre post c u _ _ _ | pre post c].
  - left. exists c'. now repeat split.
  - apply in_app_or in Hin. destruct Hin as [Hin | [<- | []]].
    + left. exists c'. now repeat split.
    + right. now repeat split.
  - left. apply in_app_or in Hin. destruct Hin as [Hin | [<- | Hin]].
    + exists c'. repeat split. apply in_or_app. now left.
    + exists c. repeat split. apply in_or_app. right. now left.
    + exists c'. repeat split. apply in_or_app. right. now right.
  - left. exists c'. repeat split.
    apply in_app_or in Hin. apply in_or_app.
    destruct Hin as [Hin | Hin]; [now left | right; now right].
Qed.

Lemma contact_identity_is_kept_witness :
  let fresh := Contact.mk 3%N "Cy" "2547000111222" SUPPORT_LINK 7 in
  (exists c, In c (contacts two_contacts)
             /\ Contact._id fresh = Contact._id c
             /\ Contact.link fresh = Contact.link c
             /\ Contact.created_at fresh = Contact.created_at c)
  \/ (Contact._id fresh = next_oid two_contacts /\ Contact.link fresh = SUPPORT_LINK
      /\ Contact.created_at fresh = 7%Z).
Proof.
  apply (contact_identity_is_kept base_variant "s3cret" 7
           (mkRequest None (POST_contacts (Some "Cy") (Some "+254 7000 111 222")))
           two_contacts).
  vm_compute. right. right. left. reflexivity.
Defined.

(** ** Normalisation and registration *)

(** X6. Normalising is idempotent, works piece by piece (so separators may
    stand anywhere in the raw text), and never lengthens its input. *)
Theorem cleanedPhone_idempotent (a b : string) :
  cleanedPhone (cleanedPhone a) = cleanedPhone a
  /\ cleanedPhone (a ++ b) = cleanedPhone a ++ cleanedPhone b
  /\ (String.length (cleanedPhone a) <= String.length a)%nat.
Proof.
  split; [apply cleanedPhone_fixpoint, cleanedPhone_all_digits|].
  unfold cleanedPhone. split.
  - induction a as [|c a IH]; cbn; [reflexivity|].
    destruct (Js.regex_D c); cbn; now rewrite IH.
  - induction a as [|c a IH]; cbn; [lia|].
    destruct (Js.regex_D c); cbn; lia.
Qed.

Lemma phone_taken_app (p : string) (xs ys : list Contact.t) :
  phone_taken p (xs ++ ys) = phone_taken p xs || phone_taken p ys.
Proof. unfold phone_taken. apply existsb_app. Qed.

(** X5. A successful registration leaves its normalised number held by a
    contact.  From then on, whenever a registration with a non-empty name and
    a phone number that normalises to the same digits, however it is written,
    reaches a store that answers: while some contact holds the number it is
    answered 409 and adds nothing, the insert being its only store call; once
    no contact holds it any more it is answered 201. *)
Theorem second_registration_is_refused (v : Variant) (now1 : Z)
    (name1 : option string) (raw1 : string) (w w1 : World) (r : Response) :
  post_contacts v now1 name1 (Some raw1) w = (r, w1) ->
  status r = 201%nat ->
  phone_taken (cleanedPhone raw1) (contacts w1) = true
  /\ forall (now2 : Z) (name2 : option string) (raw2 : string) (w2 : World),
       cleanedPhone raw2 = cleanedPhone raw1 ->
       Js.truthy name2 = true ->
       online w2 = true ->
       (phone_taken (cleanedPhone raw1) (contacts w2) = true ->
          post_contacts v now2 name2 (Some raw2) w2 =
            (mkResponse 409 (Error "Phone number already registered"),
             log (contacts_coll, InsertOne) w2)
          /\ contacts (snd (post_contacts v now2 name2 (Some raw2) w2)) = contacts w2)
       /\ (phone_taken (cleanedPhone raw1) (contacts w2) = false ->
           status (fst (post_contacts v now2 name2 (Some raw2) w2)) = 201%nat).
Proof.
  intros Hfirst H201.
  rewrite post_contacts_run in Hfirst. cbv zeta in Hfirst. cbn [Js.str] in Hfirst.
  destruct (negb (Js.truthy name1) || negb (Js.truthy (Some raw1)));
    [inversion Hfirst; subst; discriminate H201|].
  destruct (length_out_of_range (cleanedPhone raw1)) eqn:Hlen;
    [inversion Hfirst; subst; discriminate H201|].
  destruct (Js.includes blockedNumbers (cleanedPhone raw1)) eqn:Hblocked;
    [inversion Hfirst; subst; discriminate H201|].
  destruct (online w) eqn:Hon; [|inversion Hfirst; subst; discriminate H201].
  destruct (phone_taken (cleanedPhone raw1) (contacts w));
    [inversion Hfirst; subst; discriminate H201|].
  inversion Hfirst; subst r w1; clear Hfirst. split.
  - cbn [contacts with_next_oid with_contacts log].
    rewrite phone_taken_app. cbn [phone_taken existsb Contact.phone_number].
    now rewrite String.eqb_refl, orb_true_r.
  - intros now2 name2 raw2 w2 Hsame Hname2 Hon2.
    assert (Hraw2 : Js.truthy (Some raw2) = true).
    { apply truthy_Some. intros ->. rewrite <- Hsame in Hlen. discriminate Hlen. }
    rewrite post_contacts_run. cbv zeta. cbn [Js.str].
    rewrite Hname2, Hraw2, Hsame, Hlen, Hblocked, Hon2. cbn [negb orb].
    split; intros ->; [split; reflexivity | reflexivity].
Qed.

Lemma second_registration_is_refused_witness :
  post_contacts vip_variant 9 (Some "Amy again") (Some "(254) 712-000-111")
    (snd (post_contacts vip_variant 5 (Some "Amy") (Some "+254 712 000 111")
            empty_store))
  = (mkResponse 409 (Error "Phone number already registered"),
     log (contacts_coll, InsertOne)
       (snd (post_contacts vip_variant 5 (Some "Amy") (Some "+254 712 000 111")
               empty_store))).
Proof.
  pose (first := post_contacts vip_variant 5 (Some "Amy") (Some "+254 712 000 111")
                   empty_store).
  exact (proj1 (proj1 (proj2
           (second_registration_is_refused vip_variant 5 (Some "Amy")
              "+254 712 000 111" empty_store (snd first) (fst first)
              eq_refl eq_refl)
           9%Z (Some "Amy again") "(254) 712-000-111" (snd first)
           eq_refl eq_refl eq_refl)
         eq_refl)).
Defined.

(** ** The admin key *)

(** X7. The login route and the guard of the admin routes agree: the login is
    answered 200 exactly for the keys that the guard lets through to the
    handler, namely the non-empty keys equal to the configured secret; and the
    login never touches the store. *)
Theorem login_agrees_with_guard (ADMIN_KEY : string) (key : option string) (w : World) :
  (fst (post_admin_login ADMIN_KEY key w) = mkResponse 200 Success
   <-> forall (next : Handler) (w' : World), adminAuth ADMIN_KEY key next w' = next w')
  /\ (fst (post_admin_login ADMIN_KEY key w) = mkResponse 200 Success
      <-> key = Some ADMIN_KEY /\ ADMIN_KEY <> "")
  /\ snd (post_admin_login ADMIN_KEY key w) = w.
Proof.
  split; [|split; [|apply post_admin_login_same]].
  - unfold post_admin_login, adminAuth.
    destruct (negb (Js.truthy key)); cbn [orb fst].
    + split; [discriminate|]. intros H.
      specialize (H (fun w0 => (json 200 Success, w0)) w). discriminate H.
    + destruct (Js.strict_neq key ADMIN_KEY); cbn [fst].
      * split; [discriminate|]. intros H.
        specialize (H (fun w0 => (json 200 Success, w0)) w). discriminate H.
      * split; [reflexivity | intros _; reflexivity].
  - unfold post_admin_login, Js.truthy, Js.strict_neq.
    destruct key as [k|]; cbn [negb fst]; [|split; [discriminate | intros [H _]; discriminate H]].
    destruct (String.eqb_spec k ""); cbn [negb fst].
    + split; [discriminate|]. intros [H Hne]. inversion H. congruence.
    + destruct (String.eqb_spec k ADMIN_KEY); cbn [negb fst].
      * split; [|reflexivity]. intros _. split; congruence.
      * split; [discriminate|]. intros [H _]. inversion H. congruence.
Qed.

(** ** The broadcast log *)

(** X8. A broadcast posted with a time stamp later than every stored one is
    what the latest-broadcast route then returns; the post itself is answered
    with the stored document. *)
Theorem posted_broadcast_is_latest (v : Variant) (now : Z) (message : string)
    (w : World) :
  online w = true ->
  message <> "" ->
  (forall b, In b (broadcasts w) -> (Broadcast.created_at b < now)%Z) ->
  let post := Broadcast.mk (next_oid w) message now in
  let answer := post_admin_broadcast v now (Some message) w in
  fst answer = mkResponse 200 (Posted post)
  /\ broadcasts (snd answer) = (broadcasts w ++ [post])%list
  /\ fst (get_broadcast_latest v (snd answer)) = mkResponse 200 (Latest (Some post)).
Proof.
  intros Hon Hmsg Hnew post answer. subst answer.
  rewrite post_admin_broadcast_run.
  assert (Ht : Js.truthy (Some message) = true) by now apply truthy_Some.
  rewrite Ht. cbn [negb]. cbv zeta. rewrite Hon. cbn [fst snd Js.str]. fold post.
  split; [reflexivity|]. split; [reflexivity|].
  rewrite get_broadcast_latest_run.
  cbn [fst online broadcasts with_next_oid with_broadcasts log]. rewrite Hon.
  unfold limit.
  destruct (sort_desc Broadcast.created_at (broadcasts w ++ [post])) as [|h t] eqn:E.
  - apply sort_by_nil in E. now destruct (broadcasts w).
  - cbn [firstn hd_error]. unfold json.
    destruct (sort_desc_head _ _ _ _ E) as [Hin Hmax].
    apply in_app_or in Hin. destruct Hin as [Hin | [<- | []]]; [|reflexivity].
    exfalso.
    assert (Hpost : In post (broadcasts w ++ [post])).
    { apply in_or_app. right. now left. }
    specialize (Hmax post Hpost). specialize (Hnew h Hin). cbn in Hmax. lia.
Qed.

Lemma posted_broadcast_is_latest_witness :
  fst (get_broadcast_latest base_variant
         (snd (post_admin_broadcast base_variant 400 (Some "hello") three_broadcasts)))
  = mkResponse 200 (Latest (Some (Broadcast.mk 4%N "hello" 400))).
Proof.
  refine (proj2 (proj2 (posted_broadcast_is_latest base_variant 400 "hello"
                          three_broadcasts eq_refl _ _))).
  - discriminate.
  - intros b [<- | [<- | [<- | []]]]; reflexivity.
Defined.

(** X9. The broadcast log is append-only: a request leaves it as it was, unless
    it is an authorised broadcast post with a non-empty message reaching a
    store that answers, which appends that message stamped with the current
    time.  No route edits or removes a broadcast. *)
Theorem broadcasts_append_only (v : Variant) (ADMIN_KEY : string) (now : Z)
    (req : Request) (w : World) :
  broadcasts (snd (app v ADMIN_KEY now req w)) = broadcasts w
  \/ exists message,
       route req = POST_admin_broadcast (Some message)
       /\ message <> "" /\ x_admin_key req = Some ADMIN_KEY /\ online w = true
       /\ broadcasts (snd (app v ADMIN_KEY now req w))
          = (broadcasts w ++ [Broadcast.mk (next_oid w) message now])%list.
Proof.
  destruct (is_get (route req)) eqn:Hget.
  - left. now destruct (get_routes_same_data v ADMIN_KEY now req w Hget) as (_ & -> & _).
  - unfold app. destruct (route req) eqn:Hroute; try discriminate Hget.
    + left. rewrite post_contacts_run. cbv zeta.
      repeat match goal with |- context [if ?b then _ else _] => destruct b end;
        reflexivity.
    + left. rewrite put_contacts_run.
      destruct (negb _ || _); [reflexivity|].
      destruct (Js.truthy new_phone_number && _); [reflexivity|].
      rewrite put_contacts_write_run. cbv zeta.
      destruct (online w); [|reflexivity].
      destruct (split_first _ _) as [[[pre c] post]|]; [|reflexivity].
      now destruct (match upd_phone_number _ with Some _ => _ | None => _ end).
    + left. now rewrite post_admin_login_same.
    + unfold adminAuth.
      destruct (Js.truthy (x_admin_key req)) eqn:Hkey; cbn [negb orb]; [|now left].
      destruct (Js.strict_neq (x_admin_key req) ADMIN_KEY) eqn:Hneq; [now left|].
      rewrite post_admin_broadcast_run.
      destruct (Js.truthy message) eqn:Hmsg; cbn [negb]; [|now left]. cbv zeta.
      destruct (online w) eqn:Hon; [|now left].
      right. destruct message as [m|]; [|discriminate Hmsg].
      exists m. repeat split.
      * now apply truthy_Some.
      * unfold Js.strict_neq in Hneq. destruct (x_admin_key req) as [k|];
          [|discriminate Hneq].
        apply negb_false_iff, String.eqb_eq in Hneq. now subst.
    + left. unfold adminAuth. destruct (negb _ || _); [reflexivity|].
      destruct (ObjectId_of_string id) as [oid|] eqn:Hid.
      * rewrite put_admin_contacts_run.
        destruct (negb _ && _); [reflexivity|].
        destruct (Js.truthy phone_number && _); [reflexivity|].
        rewrite (put_admin_contacts_write_run v id oid) by exact Hid. cbv zeta.
        destruct (online w); [|reflexivity].
        destruct (split_first _ _) as [[[pre c] post]|]; [|reflexivity].
        now destruct (match upd_phone_number _ with Some _ => _ | None => _ end).
      * now rewrite put_admin_contacts_malformed.
    + left. unfold adminAuth. destruct (negb _ || _); [reflexivity|].
      rewrite delete_admin_contacts_run.
      destruct (ObjectId_of_string id); [|reflexivity]. cbv zeta.
      destruct (online w); [|reflexivity].
      now destruct (split_first _ _) as [[[pre c] post]|].
    + left. destruct v; [|reflexivity]. unfold adminAuth.
      destruct (negb _ || _); [reflexivity|].
      now destruct (vip_send_media_never_succeeds now files caption type w) as [-> _].
Qed.

(** ** Listing and deleting contacts *)

Lemma insert_by_perm {A : Type} (before : A -> A -> bool) (x : A) (l : list A) :
  Permutation (insert_by before x l) (x :: l).
Proof.
  induction l as [|y l IH]; cbn; [reflexivity|].
  destruct (before x y); [reflexivity|].
  rewrite IH. apply perm_swap.
Qed.

Lemma sort_by_perm {A : Type} (before : A -> A -> bool) (l : list A) :
  Permutation (sort_by before l) l.
Proof.
  unfold sort_by. induction l as [|x l IH]; cbn; [reflexivity|].
  rewrite insert_by_perm. now constructor.
Qed.

Lemma insert_asc_sorted {A : Type} (key : A -> Z) (x : A) (l : list A) :
  Sorted (fun a b => (key a <= key b)%Z) l ->
  Sorted (fun a b => (key a <= key b)%Z)
         (insert_by (fun a b => (key a <=? key b)%Z) x l).
Proof.
  induction l as [|y l IH]; intros Hs; cbn.
  - repeat constructor.
  - destruct (key x <=? key y)%Z eqn:E.
    + apply Z.leb_le in E. constructor; [exact Hs | now constructor].
    + apply Z.leb_gt in E. inversion Hs as [|? ? Hl Hhd]; subst.
      constructor; [now apply IH|].
      destruct l as [|z l]; cbn.
      * constructor. lia.
      * destruct (key x <=? key z)%Z; constructor; [lia|].
        now inversion Hhd.
Qed.

Lemma sort_asc_sorted {A : Type} (key : A -> Z) (l : list A) :
  StronglySorted (fun a b => (key a <= key b)%Z) (sort_asc key l).
Proof.
  apply Sorted_StronglySorted.
  - intros a b c Hab Hbc. lia.
  - unfold sort_asc, sort_by. induction l as [|x l IH]; cbn; [constructor|].
    now apply insert_asc_sorted.
Qed.

(** X10. When the store answers, the admin listing returns every contact,
    each once, ordered by created_at ascending, and the public listing returns
    the first 250 of that same order, so never more than 250 contacts. *)
Theorem contact_lists_are_sorted (v : Variant) (w : World) :
  online w = true ->
  exists sorted,
    Permutation sorted (contacts w)
    /\ StronglySorted older_or_same sorted
    /\ fst (get_admin_contacts v w) = mkResponse 200 (Contacts sorted)
    /\ fst (get_contacts v w) = mkResponse 200 (Contacts (firstn 250 sorted))
    /\ (length (firstn 250 sorted) <= 250)%nat.
Proof.
  intros Hon. exists (sort_asc Contact.created_at (contacts w)).
  split; [apply sort_by_perm|].
  split; [apply (sort_asc_sorted Contact.created_at)|].
  rewrite get_admin_contacts_run, get_contacts_run, Hon. unfold limit.
  repeat split. apply firstn_le_length.
Qed.

Lemma contact_lists_are_sorted_witness :
  exists sorted,
    Permutation sorted (contacts two_contacts)
    /\ StronglySorted older_or_same sorted
    /\ fst (get_admin_contacts vip_variant two_contacts) = mkResponse 200 (Contacts sorted)
    /\ fst (get_contacts vip_variant two_contacts)
       = mkResponse 200 (Contacts (firstn 250 sorted))
    /\ (length (firstn 250 sorted) <= 250)%nat.
Proof.
  exact (contact_lists_are_sorted vip_variant two_contacts eq_refl).
Defined.

Lemma split_first_found {A : Type} (p : A -> bool) (l : list A) :
  (exists x, In x l /\ p x = true) ->
  exists pre x post, split_first p l = Some (pre, x, post).
Proof.
  intros [x [Hin Hx]]. induction l as [|y l IH]; [destruct Hin|]. cbn.
  destruct (p y) eqn:Hy; [now exists [], y, l|].
  destruct Hin as [-> | Hin]; [congruence|].
  destruct (IH Hin) as (pre & z & post & ->). now exists (y :: pre), z, post.
Qed.

(** X11. Deleting by a well-formed id on a store that answers: when no contact
    has that _id the answer is 404 and the contacts are as before; when one
    does, the answer is 200 and exactly that contact (the first with the id) is
    removed, the others keeping their order. *)
Theorem delete_removes_one_contact (v : Variant) (id : string) (oid : ObjectId)
    (w : World) :
  ObjectId_of_string id = Some oid ->
  online w = true ->
  let answer := delete_admin_contacts v id w in
  ((forall c, In c (contacts w) -> Contact._id c <> oid) ->
     fst answer = mkResponse 404 (Error "Contact not found")
     /\ contacts (snd answer) = contacts w)
  /\ ((exists c, In c (contacts w) /\ Contact._id c = oid) ->
      exists pre c post,
        contacts w = (pre ++ c :: post)%list
        /\ Contact._id c = oid
        /\ (forall x, In x pre -> Contact._id x <> oid)
        /\ fst answer = mkResponse 200 (Message "Contact deleted successfully")
        /\ contacts (snd answer) = (pre ++ post)%list).
Proof.
  intros Hid Hon answer. subst answer.
  rewrite delete_admin_contacts_run, Hid. cbv zeta. rewrite Hon. split.
  - intros Hnone. rewrite split_first_None; [split; reflexivity|].
    apply Forall_forall. intros c Hc. cbn. apply N.eqb_neq. now apply Hnone.
  - intros [c0 [Hin Hc0]].
    destruct (split_first_found (matches (by_id oid)) (contacts w))
      as (pre & c & post & Hsplit).
    { exists c0. split; [exact Hin|]. cbn. now apply N.eqb_eq. }
    rewrite Hsplit. apply split_first_Some in Hsplit.
    destruct Hsplit as (Hcs & Hc & Hpre).
    exists pre, c, post. repeat split; try assumption.
    + cbn in Hc. now apply N.eqb_eq.
    + intros x Hx. rewrite Forall_forall in Hpre. specialize (Hpre x Hx).
      cbn in Hpre. now apply N.eqb_neq.
Qed.

Lemma delete_removes_one_contact_witness :
  exists pre c post,
    contacts two_contacts = (pre ++ c :: post)%list
    /\ Contact._id c = 2%N
    /\ (forall x, In x pre -> Contact._id x <> 2%N)
    /\ fst (delete_admin_contacts base_variant "000000000000000000000002" two_contacts)
       = mkResponse 200 (Message "Contact deleted successfully")
    /\ contacts (snd (delete_admin_contacts base_variant "000000000000000000000002"
                        two_contacts))
       = (pre ++ post)%list.
Proof.
  apply (proj2 (delete_removes_one_contact base_variant
                  "000000000000000000000002" 2%N two_contacts eq_refl eq_refl)).
  exists bob. split; [right; now left | reflexivity].
Defined.

(** ** Changing a contact *)

Lemma find_after_prefix {A : Type} (p : A -> bool) (pre post : list A) (x : A) :
  Forall (fun y => p y = false) pre -> p x = true ->
  List.find p (pre ++ x :: post) = Some x.
Proof.
  intros Hpre Hx. induction Hpre as [|y pre Hy _ IH]; cbn.
  - now rewrite Hx.
  - now rewrite Hy.
Qed.

Lemma phone_taken_Forall (p : string) (cs : list Contact.t) :
  phone_taken p cs = false ->
  Forall (fun c => matches (by_phone_number p) c = false) cs.
Proof.
  unfold phone_taken. intros H. apply Forall_forall. intros c Hc. cbn.
  destruct (String.eqb (Contact.phone_number c) p) eqn:E; [|reflexivity].
  assert (Ht : existsb (fun c0 => String.eqb (Contact.phone_number c0) p) cs = true).
  { apply existsb_exists. now exists c. }
  congruence.
Qed.

Lemma apply_set_update_of (name phone_number : option string) (c : Contact.t) :
  apply_set (update_of name phone_number) c =
    Contact.mk (Contact._id c)
      (if Js.truthy name then Js.str name else Contact.name c)
      (if Js.truthy phone_number then cleanedPhone (Js.str phone_number)
       else Contact.phone_number c)
      (Contact.link c) (Contact.created_at c).
Proof.
  unfold apply_set, update_of. cbn [upd_name upd_phone_number].
  destruct (Js.truthy phone_number); destruct (Js.truthy name) eqn:Hn;
    try reflexivity; destruct name as [n|]; try reflexivity;
    discriminate Hn.
Qed.

(** X12. A SelfUpdate that goes through answers 200 with the contact as it
    now stands: when the phone number changed the contact is read back under
    its new number, otherwise under the old one, and in both cases the
    document returned is the updated one: the matched contact with the new
    name and the normalised new number where they were given, and its other
    fields as they were. *)
Theorem self_update_returns_updated (v : Variant) (old : string)
    (new_name new_phone_number : option string) (w : World)
    (pre post : list Contact.t) (c : Contact.t) :
  online w = true ->
  old <> "" ->
  Js.truthy new_name || Js.truthy new_phone_number = true ->
  Js.truthy new_phone_number
    && length_out_of_range (cleanedPhone (Js.str new_phone_number)) = false ->
  split_first (matches (by_phone_number old)) (contacts w) = Some (pre, c, post) ->
  (Js.truthy new_phone_number = true ->
   phone_taken (cleanedPhone (Js.str new_phone_number)) (pre ++ post) = false) ->
  let updated := apply_set (update_of new_name new_phone_number) c in
  put_contacts v (Some old) new_name new_phone_number w =
    (mkResponse 200 (ContactUpdated "Contact updated successfully" (Some updated)),
     log (contacts_coll, FindOne)
       (with_contacts (pre ++ updated :: post) (log (contacts_coll, UpdateOne) w)))
  /\ updated =
      Contact.mk (Contact._id c)
        (if Js.truthy new_name then Js.str new_name else Contact.name c)
        (if Js.truthy new_phone_number then cleanedPhone (Js.str new_phone_number)
         else Contact.phone_number c)
        (Contact.link c) (Contact.created_at c).
Proof.
  intros Hon Hold Hsome Hvalid Hsplit Hfree updated.
  split; [|apply apply_set_update_of].
  assert (Ht : Js.truthy (Some old) = true) by now apply truthy_Some.
  rewrite put_contacts_run, Ht. cbn [negb orb].
  assert (Hmissing : negb (Js.truthy new_name) && negb (Js.truthy new_phone_number)
                     = false).
  { destruct (Js.truthy new_name), (Js.truthy new_phone_number);
      try reflexivity; discriminate Hsome. }
  rewrite Hmissing, Hvalid, put_contacts_write_run. cbv zeta.
  rewrite Hon. cbn [Js.str]. rewrite Hsplit. fold updated.
  apply split_first_Some in Hsplit. destruct Hsplit as (_ & Hc & Hpre).
  assert (Hnot : match upd_phone_number (update_of new_name new_phone_number) with
                 | Some p => phone_taken p (pre ++ post)
                 | None => false
                 end = false).
  { unfold update_of. cbn [upd_phone_number].
    destruct (Js.truthy new_phone_number); [now apply Hfree | reflexivity]. }
  rewrite Hnot. cbn [contacts with_contacts log].
  assert (Hfind :
    List.find
      (matches (by_phone_number
         (Js.or_else (upd_phone_number (update_of new_name new_phone_number)) old)))
      (pre ++ updated :: post) = Some updated).
  { subst updated. rewrite apply_set_update_of.
    unfold update_of. cbn [upd_phone_number].
    destruct (Js.truthy new_phone_number) eqn:Hphone.
    - specialize (Hfree eq_refl).
      cbn [andb] in Hvalid. apply length_out_of_range_false in Hvalid.
      assert (Hne : String.eqb (cleanedPhone (Js.str new_phone_number)) "" = false).
      { apply String.eqb_neq. intros E. rewrite E in Hvalid. cbn in Hvalid. lia. }
      unfold Js.or_else. rewrite Hne. apply find_after_prefix.
      + apply phone_taken_Forall in Hfree. apply Forall_app in Hfree. apply Hfree.
      + cbn [matches Contact.phone_number]. apply String.eqb_refl.
    - cbn [Js.or_else]. apply find_after_prefix; [exact Hpre|]. exact Hc. }
  rewrite Hfind. reflexivity.
Qed.

Lemma self_update_returns_updated_witness :
  fst (put_contacts vip_variant (Some "15550001234") None (Some "+1 (555) 000-9999")
         two_contacts)
  = mkResponse 200 (ContactUpdated "Contact updated successfully"
                (Some (Contact.mk 2%N "Bob;Jr" "15550009999" SUPPORT_LINK 2000))).
Proof.
  refine (f_equal fst
            (proj1 (self_update_returns_updated vip_variant "15550001234" None
                      (Some "+1 (555) 000-9999") two_contacts [amy] [] bob
                      eq_refl _ eq_refl eq_refl eq_refl _))).
  - discriminate.
  - reflexivity.
Defined.

Lemma in_range_is_truthy (raw : string) :
  length_out_of_range (cleanedPhone raw) = false -> Js.truthy (Some raw) = true.
Proof.
  intros H. apply truthy_Some. intros ->. discriminate H.
Qed.

(** What [PUT /api/contacts] does with a new phone number that passes the
    range check, for a contact found under the old number. *)
Lemma put_contacts_new_phone (v : Variant) (old raw : string) (new_name : option string)
    (w : World) (pre post : list Contact.t) (c : Contact.t) :
  online w = true -> old <> "" ->
  length_out_of_range (cleanedPhone raw) = false ->
  split_first (matches (by_phone_number old)) (contacts w) = Some (pre, c, post) ->
  put_contacts v (Some old) new_name (Some raw) w =
    let u := update_of new_name (Some raw) in
    let w1 := log (contacts_coll, UpdateOne) w in
    if phone_taken (cleanedPhone raw) (pre ++ post)
    then (json 409 (Error "Phone number already registered"), w1)
    else
      let w2 := with_contacts (pre ++ apply_set u c :: post) w1 in
      (json 200 (ContactUpdated "Contact updated successfully"
         (List.find (matches (by_phone_number (Js.or_else (upd_phone_number u) old)))
            (contacts w2))),
       log (contacts_coll, FindOne) w2).
Proof.
  intros Hon Hold Hlen Hsplit.
  assert (Ht : Js.truthy (Some old) = true) by now apply truthy_Some.
  pose proof (in_range_is_truthy raw Hlen) as Hraw.
  rewrite put_contacts_run, Ht, Hraw. cbn [negb orb andb Js.str].
  rewrite andb_false_r, Hlen, put_contacts_write_run. cbv zeta.
  rewrite Hon, Hsplit. unfold update_of at 1. cbn [upd_phone_number Js.str].
  rewrite Hraw. reflexivity.
Qed.

(** X13. Changing a contact's number to one that another contact holds is
    answered 409 and changes nothing; changing it to the number the contact
    already has is not a collision and is answered 200, as long as the stored
    numbers are pairwise distinct. *)
Theorem self_update_collision (v : Variant) (old raw : string)
    (new_name : option string) (w : World)
    (pre post : list Contact.t) (c : Contact.t) :
  online w = true -> old <> "" ->
  length_out_of_range (cleanedPhone raw) = false ->
  split_first (matches (by_phone_number old)) (contacts w) = Some (pre, c, post) ->
  (phone_taken (cleanedPhone raw) (pre ++ post) = true ->
     put_contacts v (Some old) new_name (Some raw) w =
       (mkResponse 409 (Error "Phone number already registered"),
        log (contacts_coll, UpdateOne) w))
  /\ (phones_unique (contacts w) -> cleanedPhone raw = old ->
      status (fst (put_contacts v (Some old) new_name (Some raw) w)) = 200%nat
      /\ map Contact.phone_number
           (contacts (snd (put_contacts v (Some old) new_name (Some raw) w)))
         = map Contact.phone_number (contacts w)).
Proof.
  intros Hon Hold Hlen Hsplit.
  rewrite (put_contacts_new_phone v old raw new_name w pre post c) by assumption.
  cbv zeta. split.
  - intros ->. reflexivity.
  - intros Huniq Hown.
    apply split_first_Some in Hsplit. destruct Hsplit as (Hcs & Hc & _).
    cbn in Hc. apply String.eqb_eq in Hc.
    assert (Hfree : phone_taken (cleanedPhone raw) (pre ++ post) = false).
    { apply phone_taken_false. unfold phones_unique in Huniq.
      rewrite Hcs, map_app in Huniq. cbn [map] in Huniq.
      apply NoDup_remove_2 in Huniq. rewrite map_app, Hown, <- Hc. exact Huniq. }
    rewrite Hfree. cbn [fst snd status json contacts with_contacts log].
    split; [reflexivity|].
    rewrite Hcs, !map_app. cbn [map]. do 2 f_equal.
    unfold apply_set, update_of. cbn [Contact.phone_number upd_phone_number Js.str].
    rewrite (in_range_is_truthy raw Hlen). congruence.
Qed.

Lemma self_update_collision_witness :
  put_contacts vip_variant (Some "15550001234") None (Some "+254 712 000 111")
    amy_bob_cy
  = (mkResponse 409 (Error "Phone number already registered"),
     log (contacts_coll, UpdateOne) amy_bob_cy).
Proof.
  refine (proj1 (self_update_collision vip_variant "15550001234" "+254 712 000 111"
                   None amy_bob_cy [amy]
                   [Contact.mk 3%N "Cy" "2547000111222" SUPPORT_LINK 3000] bob
                   eq_refl _ eq_refl eq_refl) eq_refl).
  discriminate.
Defined.

(** X14. The deny-list guards registration only.  A number that registration
    refuses with 403 is accepted by SelfUpdate: a contact found under its old
    number is given the deny-listed number, with answer 200, when no other
    contact holds it. *)
Theorem update_ignores_deny_list (v : Variant) (now : Z) (old raw name : string)
    (w : World) (pre post : list Contact.t) (c : Contact.t) :
  online w = true -> old <> "" -> name <> "" ->
  In (cleanedPhone raw) blockedNumbers ->
  split_first (matches (by_phone_number old)) (contacts w) = Some (pre, c, post) ->
  phone_taken (cleanedPhone raw) (pre ++ post) = false ->
  fst (post_contacts v now (Some name) (Some raw) w)
    = mkResponse 403 (Error "This number is restricted from registering.")
  /\ status (fst (put_contacts v (Some old) None (Some raw) w)) = 200%nat
  /\ contacts (snd (put_contacts v (Some old) None (Some raw) w))
     = (pre ++ Contact.mk (Contact._id c) (Contact.name c) (cleanedPhone raw)
                 (Contact.link c) (Contact.created_at c) :: post)%list.
Proof.
  intros Hon Hold Hname Hblocked Hsplit Hfree.
  destruct (blocked_is_well_formed raw Hblocked) as [Hraw Hlen].
  split.
  - rewrite post_contacts_run. cbv zeta. cbn [Js.str].
    assert (Hn : Js.truthy (Some name) = true) by now apply truthy_Some.
    rewrite Hn, Hraw, Hlen. cbn [negb orb].
    apply includes_In in Hblocked. now rewrite Hblocked.
  - rewrite (put_contacts_new_phone v old raw None w pre post c) by assumption.
    cbv zeta. rewrite Hfree. cbn [fst snd status json contacts with_contacts log].
    split; [reflexivity|]. do 2 f_equal.
    unfold apply_set, update_of. cbn [upd_name upd_phone_number Js.str].
    rewrite Hraw. reflexivity.
Qed.

Lemma update_ignores_deny_list_witness :
  fst (post_contacts vip_variant 9 (Some "Bob") (Some "+254 713 380 848") two_contacts)
    = mkResponse 403 (Error "This number is restricted from registering.")
  /\ status (fst (put_contacts vip_variant (Some "15550001234") None
                    (Some "+254 713 380 848") two_contacts)) = 200%nat
  /\ contacts (snd (put_contacts vip_variant (Some "15550001234") None
                      (Some "+254 713 380 848") two_contacts))
     = [amy; Contact.mk 2%N "Bob;Jr" "254713380848" SUPPORT_LINK 2000].
Proof.
  refine (update_ignores_deny_list vip_variant 9 "15550001234" "+254 713 380 848"
            "Bob" two_contacts [amy] [] bob eq_refl _ _ _ eq_refl eq_refl).
  - discriminate.
  - discriminate.
  - left. reflexivity.
Defined.

(** ** Which requests change the stored data *)

(** A request leaves the stored data alone, or it is answered 200 or 201 and
    leaves the VIP collection alone. *)
Lemma app_effect (v : Variant) (ADMIN_KEY : string) (now : Z) (req : Request)
    (w : World) :
  same_data w (snd (app v ADMIN_KEY now req w))
  \/ ((status (fst (app v ADMIN_KEY now req w)) = 200%nat
       \/ status (fst (app v ADMIN_KEY now req w)) = 201%nat)
      /\ vip_photos (snd (app v ADMIN_KEY now req w)) = vip_photos w).
Proof.
  destruct (is_get (route req)) eqn:Hget;
    [left; now apply get_routes_same_data|].
  unfold app, adminAuth. destruct (route req); try discriminate Hget.
  - rewrite post_contacts_run. cbv zeta.
    destruct (negb _ || _); [left; apply same_data_refl|].
    destruct (length_out_of_range _); [left; apply same_data_refl|].
    destruct (Js.includes _ _); [left; apply same_data_refl|].
    destruct (online w); [|left; apply same_data_log].
    destruct (phone_taken _ _); [left; apply same_data_log|].
    right. split; [now right | reflexivity].
  - rewrite put_contacts_run.
    destruct (negb _ || _); [left; apply same_data_refl|].
    destruct (Js.truthy new_phone_number && _); [left; apply same_data_refl|].
    rewrite put_contacts_write_run. cbv zeta.
    destruct (online w); [|left; apply same_data_log].
    destruct (split_first _ _) as [[[pre c] post]|]; [|left; apply same_data_log].
    destruct (match upd_phone_number _ with Some _ => _ | None => _ end);
      [left; apply same_data_log|].
    right. split; [now left | reflexivity].
  - left. rewrite post_admin_login_same. apply same_data_refl.
  - destruct (negb _ || _); [left; apply same_data_refl|].
    rewrite post_admin_broadcast_run.
    destruct (negb (Js.truthy message)); [left; apply same_data_refl|]. cbv zeta.
    destruct (online w); [|left; apply same_data_log].
    right. split; [now left | reflexivity].
  - destruct (negb _ || _); [left; apply same_data_refl|].
    destruct (ObjectId_of_string id) as [oid|] eqn:Hid.
    + rewrite put_admin_contacts_run.
      destruct (negb _ && _); [left; apply same_data_refl|].
      destruct (Js.truthy phone_number && _); [left; apply same_data_refl|].
      rewrite (put_admin_contacts_write_run v id oid) by exact Hid. cbv zeta.
      destruct (online w); [|left; apply same_data_log].
      destruct (split_first _ _) as [[[pre c] post]|]; [|left; apply same_data_log].
      destruct (match upd_phone_number _ with Some _ => _ | None => _ end);
        [left; apply same_data_log|].
      right. split; [now left | reflexivity].
    + left. rewrite put_admin_contacts_malformed by exact Hid. apply same_data_refl.
  - destruct (negb _ || _); [left; apply same_data_refl|].
    rewrite delete_admin_contacts_run.
    destruct (ObjectId_of_string id); [|left; apply same_data_refl]. cbv zeta.
    destruct (online w); [|left; apply same_data_log].
    destruct (split_first _ _) as [[[pre c] post]|]; [|left; apply same_data_log].
    right. split; [now left | reflexivity].
  - left. destruct v; [|apply same_data_refl].
    destruct (negb _ || _); [apply same_data_refl|].
    destruct (vip_send_media_never_succeeds now files caption type w) as [-> _].
    apply same_data_refl.
Qed.

(** X16. A request answered with a client error (400, 401, 403, 404 or 409)
    has changed nothing: contacts, broadcasts, VIP media and the id counter
    are as they were. *)
Theorem client_errors_change_nothing (v : Variant) (ADMIN_KEY : string) (now : Z)
    (req : Request) (w : World) :
  (400 <= status (fst (app v ADMIN_KEY now req w)) < 500)%nat ->
  same_data w (snd (app v ADMIN_KEY now req w)).
Proof.
  intros Hstatus.
  destruct (app_effect v ADMIN_KEY now req w) as [Hsame | [[H | H] _]];
    [exact Hsame | rewrite H in Hstatus; lia | rewrite H in Hstatus; lia].
Qed.

Lemma client_errors_change_nothing_witness :
  same_data two_contacts
    (snd (app base_variant "s3cret" 9
            (mkRequest None (POST_contacts (Some "Amy") (Some "254-712-000-111")))
            two_contacts)).
Proof.
  apply client_errors_change_nothing. vm_compute.
  split; [repeat constructor | repeat constructor].
Defined.

(** X17. The routes registered with [app.get] never write: whatever they
    answer, the stored data is as it was. *)
Theorem get_routes_only_read (v : Variant) (ADMIN_KEY : string) (now : Z)
    (req : Request) (w : World) :
  is_get (route req) = true ->
  same_data w (snd (app v ADMIN_KEY now req w)).
Proof. apply get_routes_same_data. Qed.

Lemma get_routes_only_read_witness :
  same_data two_contacts
    (snd (app vip_variant "s3cret" 9 (mkRequest None GET_contacts_download)
            two_contacts)).
Proof.
  exact (get_routes_only_read vip_variant "s3cret" 9
           (mkRequest None GET_contacts_download) two_contacts eq_refl).
Defined.

(** X15. The VIP collection is dead: no request, in either variant, ever
    changes it, and in the VIP variant the photo listing is answered 500 for
    every store, because its handler too reads the undeclared
    [vipPhotosCollection]. *)
Theorem vip_collection_is_dead (ADMIN_KEY : string) (now : Z) (w : World) :
  (forall v req, vip_photos (snd (app v ADMIN_KEY now req w)) = vip_photos w)
  /\ (forall key,
        app vip_variant ADMIN_KEY now (mkRequest key GET_vip_photos) w
        = (mkResponse 500 (Error "Failed to fetch VIP photos"), w)).
Proof.
  split; [|reflexivity].
  intros v req.
  destruct (app_effect v ADMIN_KEY now req w) as [(_ & _ & H & _) | [_ H]]; exact H.
Qed.

(** ** Counting contacts and store calls *)

(** X18. A contact that has just been registered is counted: after a
    registration answered 201 the count route reports one contact more than
    the store held before, and a registration answered anything else leaves
    the number of contacts as it was. *)
Theorem registered_contact_is_counted (v : Variant) (now : Z)
    (name phone_number : option string) (w w1 : World) (r : Response) :
  post_contacts v now name phone_number w = (r, w1) ->
  (status r = 201%nat ->
     fst (get_contacts_count v w1) = mkResponse 200 (Count (S (length (contacts w)))))
  /\ (status r <> 201%nat -> length (contacts w1) = length (contacts w)).
Proof.
  intros Hrun. rewrite post_contacts_run in Hrun. cbv zeta in Hrun.
  destruct (negb _ || _);
    [inversion Hrun; subst; split; [discriminate | reflexivity]|].
  destruct (length_out_of_range _);
    [inversion Hrun; subst; split; [discriminate | reflexivity]|].
  destruct (Js.includes _ _);
    [inversion Hrun; subst; split; [discriminate | reflexivity]|].
  destruct (online w) eqn:Hon;
    [|inversion Hrun; subst; split; [discriminate | reflexivity]].
  destruct (phone_taken _ _);
    [inversion Hrun; subst; split; [discriminate | reflexivity]|].
  inversion Hrun; subst r w1. split; [|intros H; now contradiction H].
  intros _. rewrite get_contacts_count_run.
  cbn [online contacts with_next_oid with_contacts log fst]. rewrite Hon.
  rewrite length_app. cbn [length]. now rewrite Nat.add_1_r.
Qed.

Lemma registered_contact_is_counted_witness :
  fst (get_contacts_count vip_variant
         (snd (post_contacts vip_variant 5 (Some "Cy") (Some "+254 7000 111 222")
                 two_contacts)))
  = mkResponse 200 (Count 3).
Proof.
  refine (proj1 (registered_contact_is_counted vip_variant 5 (Some "Cy")
                   (Some "+254 7000 111 222") two_contacts
                   (snd (post_contacts vip_variant 5 (Some "Cy")
                           (Some "+254 7000 111 222") two_contacts))
                   (fst (post_contacts vip_variant 5 (Some "Cy")
                           (Some "+254 7000 111 222") two_contacts)) _) _);
    reflexivity.
Defined.

(** X22. Registration is answered 201 exactly when the request passes the
    three local checks, the store answers and no contact holds the normalised
    number; the answer then carries the stored contact: the name as given, the
    normalised number, the support link and the current time, appended to the
    collection. *)
Theorem registration_succeeds_iff (v : Variant) (now : Z)
    (name phone_number : option string) (w : World) :
  let cleaned := cleanedPhone (Js.str phone_number) in
  let answer := post_contacts v now name phone_number w in
  let stored := Contact.mk (next_oid w) (Js.str name) cleaned SUPPORT_LINK now in
  (status (fst answer) = 201%nat
   <-> registration_valid name phone_number = true /\ online w = true
       /\ phone_taken cleaned (contacts w) = false)
  /\ (status (fst answer) = 201%nat ->
      fst answer = mkResponse 201 (ContactSaved "Contact saved successfully" stored)
      /\ contacts (snd answer) = (contacts w ++ [stored])%list).
Proof.
  intros cleaned answer stored. subst answer.
  rewrite post_contacts_run. cbv zeta. fold cleaned. fold stored.
  unfold registration_valid. fold cleaned.
  destruct (Js.truthy name), (Js.truthy phone_number); cbn [negb orb andb fst];
    try (split; [split; [discriminate | intros (H & _); discriminate H]
                | discriminate]).
  destruct (length_out_of_range cleaned); cbn [negb andb fst];
    try (split; [split; [discriminate | intros (H & _); discriminate H]
                | discriminate]).
  destruct (Js.includes blockedNumbers cleaned); cbn [negb andb fst];
    try (split; [split; [discriminate | intros (H & _); discriminate H]
                | discriminate]).
  destruct (online w);
    [|split; [split; [discriminate | intros (_ & H & _); discriminate H]
             | discriminate]].
  destruct (phone_taken cleaned (contacts w)); cbn [fst snd].
  - split; [split; [discriminate | intros (_ & _ & H); discriminate H]
           | discriminate].
  - split; [split; [now intros _ | reflexivity] | intros _; split; reflexivity].
Qed.

(** X20. The admin update by a well-formed id, with a body that passes the
    checks, on a store that answers: when no contact has that _id the answer
    is 404 and the contacts are as before; when one does and its new number,
    if any, is free, that contact alone is changed and the answer carries it
    as it now stands: the new name and the normalised new number where they
    were given, its other fields as they were. *)
Theorem admin_update_by_id (v : Variant) (id : string) (oid : ObjectId)
    (name phone_number : option string) (w : World) :
  ObjectId_of_string id = Some oid ->
  online w = true ->
  Js.truthy name || Js.truthy phone_number = true ->
  Js.truthy phone_number
    && length_out_of_range (cleanedPhone (Js.str phone_number)) = false ->
  let answer := put_admin_contacts v id name phone_number w in
  ((forall c, In c (contacts w) -> Contact._id c <> oid) ->
     fst answer = mkResponse 404 (Error "Contact not found")
     /\ contacts (snd answer) = contacts w)
  /\ (forall pre c post,
        split_first (matches (by_id oid)) (contacts w) = Some (pre, c, post) ->
        (Js.truthy phone_number = true ->
         phone_taken (cleanedPhone (Js.str phone_number)) (pre ++ post) = false) ->
        let updated := apply_set (update_of name phone_number) c in
        fst answer = mkResponse 200 (ContactUpdated "Contact updated successfully"
                                 (Some updated))
        /\ contacts (snd answer) = (pre ++ updated :: post)%list
        /\ Contact._id updated = oid
        /\ updated =
            Contact.mk (Contact._id c)
              (if Js.truthy name then Js.str name else Contact.name c)
              (if Js.truthy phone_number then cleanedPhone (Js.str phone_number)
               else Contact.phone_number c)
              (Contact.link c) (Contact.created_at c)).
Proof.
  intros Hid Hon Hsome Hvalid answer. subst answer.
  assert (Hnothing : negb (Js.truthy name) && negb (Js.truthy phone_number) = false).
  { destruct (Js.truthy name), (Js.truthy phone_number);
      try reflexivity; discriminate Hsome. }
  rewrite put_admin_contacts_run, Hnothing, Hvalid.
  rewrite (put_admin_contacts_write_run v id oid) by exact Hid. cbv zeta.
  rewrite Hon. split.
  - intros Hnone. rewrite split_first_None; [split; reflexivity|].
    apply Forall_forall. intros c Hc. cbn. apply N.eqb_neq. now apply Hnone.
  - intros pre c post Hsplit Hfree.
    set (updated := apply_set (update_of name phone_number) c). rewrite Hsplit.
    apply split_first_Some in Hsplit. destruct Hsplit as (_ & Hc & Hpre).
    assert (Hnot : match upd_phone_number (update_of name phone_number) with
                   | Some p => phone_taken p (pre ++ post)
                   | None => false
                   end = false).
    { unfold update_of. cbn [upd_phone_number].
      destruct (Js.truthy phone_number); [now apply Hfree | reflexivity]. }
    rewrite Hnot. cbn [fst snd contacts with_contacts log]. fold updated.
    assert (Hupd : matches (by_id oid) updated = true) by exact Hc.
    rewrite (find_after_prefix _ pre post updated Hpre Hupd).
    split; [reflexivity|]. split; [reflexivity|].
    split; [cbn in Hc; now apply N.eqb_eq | apply apply_set_update_of].
Qed.

Lemma admin_update_by_id_witness :
  fst (put_admin_contacts vip_variant "000000000000000000000001" (Some "Amelia") None
         two_contacts)
  = mkResponse 200 (ContactUpdated "Contact updated successfully"
                (Some (Contact.mk 1%N "Amelia" "254712000111" SUPPORT_LINK 1000))).
Proof.
  refine (proj1 (proj2 (admin_update_by_id vip_variant "000000000000000000000001"
                          1%N (Some "Amelia") None two_contacts
                          eq_refl eq_refl eq_refl eq_refl)
                   [] amy [bob] eq_refl _)).
  discriminate.
Defined.

Ltac store_called ops :=
  right; exists ops;
  cbn [snd fst trace log with_contacts with_next_oid with_broadcasts status json
       length app];
  rewrite <- ?app_assoc; cbn [app];
  repeat split; (reflexivity || lia || discriminate).

(** X19. A request either makes no store call at all, or makes one or two and
    is then answered 200, 201, 404, 409 or 500.  So an answer 400, 401 or 403
    is always produced before the store is touched, on every route. *)
Theorem rejections_precede_the_store (v : Variant) (ADMIN_KEY : string) (now : Z)
    (req : Request) (w : World) :
  snd (app v ADMIN_KEY now req w) = w
  \/ exists ops,
       trace (snd (app v ADMIN_KEY now req w)) = (trace w ++ ops)%list
       /\ (1 <= length ops <= 2)%nat
       /\ status (fst (app v ADMIN_KEY now req w)) <> 400%nat
       /\ status (fst (app v ADMIN_KEY now req w)) <> 401%nat
       /\ status (fst (app v ADMIN_KEY now req w)) <> 403%nat.
Proof.
  unfold app, adminAuth. destruct (route req).
  - now left.
  - rewrite get_contacts_count_run.
    destruct (online w); store_called [(contacts_coll, CountDocuments)].
  - rewrite get_contacts_run.
    destruct (online w); store_called [(contacts_coll, Find)].
  - destruct (online w) eqn:Hon.
    + rewrite get_contacts_download_run by exact Hon.
      destruct (contacts w); store_called [(contacts_coll, Find)].
    + rewrite get_contacts_download_offline by exact Hon.
      store_called [(contacts_coll, Find)].
  - rewrite post_contacts_run. cbv zeta.
    destruct (negb _ || _); [now left|].
    destruct (length_out_of_range _); [now left|].
    destruct (Js.includes _ _); [now left|].
    destruct (online w); [|store_called [(contacts_coll, InsertOne)]].
    destruct (phone_taken _ _); store_called [(contacts_coll, InsertOne)].
  - rewrite put_contacts_run.
    destruct (negb _ || _); [now left|].
    destruct (Js.truthy new_phone_number && _); [now left|].
    rewrite put_contacts_write_run. cbv zeta.
    destruct (online w); [|store_called [(contacts_coll, UpdateOne)]].
    destruct (split_first _ _) as [[[pre c] post]|];
      [|store_called [(contacts_coll, UpdateOne)]].
    destruct (match upd_phone_number _ with Some _ => _ | None => _ end);
      [store_called [(contacts_coll, UpdateOne)]
      |store_called [(contacts_coll, UpdateOne); (contacts_coll, FindOne)]].
  - left. apply post_admin_login_same.
  - destruct (negb _ || _); [now left|].
    rewrite post_admin_broadcast_run.
    destruct (negb (Js.truthy message)); [now left|]. cbv zeta.
    destruct (online w); store_called [(broadcasts_coll, InsertOne)].
  - destruct (negb _ || _); [now left|].
    rewrite get_admin_contacts_run.
    destruct (online w); store_called [(contacts_coll, Find)].
  - destruct (negb _ || _); [now left|].
    destruct (ObjectId_of_string id) as [oid|] eqn:Hid.
    + rewrite put_admin_contacts_run.
      destruct (negb _ && _); [now left|].
      destruct (Js.truthy phone_number && _); [now left|].
      rewrite (put_admin_contacts_write_run v id oid) by exact Hid. cbv zeta.
      destruct (online w); [|store_called [(contacts_coll, UpdateOne)]].
      destruct (split_first _ _) as [[[pre c] post]|];
        [|store_called [(contacts_coll, UpdateOne)]].
      destruct (match upd_phone_number _ with Some _ => _ | None => _ end);
        [store_called [(contacts_coll, UpdateOne)]
        |store_called [(contacts_coll, UpdateOne); (contacts_coll, FindOne)]].
    + left. now rewrite put_admin_contacts_malformed.
  - destruct (negb _ || _); [now left|].
    rewrite delete_admin_contacts_run.
    destruct (ObjectId_of_string id); [|now left]. cbv zeta.
    destruct (online w); [|store_called [(contacts_coll, DeleteOne)]].
    destruct (split_first _ _) as [[[pre c] post]|];
      store_called [(contacts_coll, DeleteOne)].
  - left. destruct v; [|reflexivity].
    destruct (negb _ || _); [reflexivity|].
    now destruct (vip_send_media_never_succeeds now files caption type w).
  - left. now destruct v.
  - rewrite get_broadcast_latest_run.
    destruct (online w); store_called [(broadcasts_coll, Find)].
Qed.
